(** * Receipt printer: the composition pipeline of [printer.js] and the
      request boundary of the HTTP server, embedded and verified.

    The development follows the source files:
    - [Js]: the JavaScript string operations the code relies on
      ([String.prototype.split], [trim], truthiness of strings);
    - the print directives and the chained [escpos.Printer] calls;
    - the open callback of [printReceipt] (the [try] block that drives the
      printer), the asset loading phase, the promise with its timer, the
      [finally] clean-up, and the [POST /print] handler. *)

From Stdlib Require Import ZArith NArith QArith Qround List String Ascii Lia Bool.
From stdpp Require Import base option list gmap strings.
Import ListNotations.

Local Open Scope list_scope.

(** ** JavaScript strings *)

Module Js.

(** A JavaScript string is a sequence of UTF-16 code units. *)
Definition CodeUnit := N.
Definition JsString := list N.

(** ASCII literals of the source, as code units. *)
Definition lit (s : string) : JsString :=
  List.map N_of_ascii (list_ascii_of_string s).

(** Truthiness of a string value: only the empty string is falsy. *)
Definition truthy (s : JsString) : bool :=
  match s with
  | [] => false
  | _ :: _ => true
  end.

(** [WhiteSpace] and [LineTerminator] code points, the set stripped by
    [String.prototype.trim]. *)
Definition isWhiteSpace (c : N) : bool :=
  ((c =? 0x09) || (c =? 0x0A) || (c =? 0x0B) || (c =? 0x0C) || (c =? 0x0D)
   || (c =? 0x20) || (c =? 0xA0) || (c =? 0x1680)
   || ((0x2000 <=? c) && (c <=? 0x200A))
   || (c =? 0x2028) || (c =? 0x2029) || (c =? 0x202F) || (c =? 0x205F)
   || (c =? 0x3000) || (c =? 0xFEFF))%N.

Fixpoint trimStart (s : JsString) : JsString :=
  match s with
  | [] => []
  | c :: s' => if isWhiteSpace c then trimStart s' else s
  end.

Definition trimEnd (s : JsString) : JsString :=
  rev (trimStart (rev s)).

Definition trim (s : JsString) : JsString :=
  trimEnd (trimStart s).

(** [startsWith sep s]: [sep] occurs in [s] at position 0. *)
Fixpoint startsWith (sep s : JsString) : bool :=
  match sep, s with
  | [], _ => true
  | _ :: _, [] => false
  | a :: sep', b :: s' => (a =? b)%N && startsWith sep' s'
  end.

(** [String.prototype.split] with a string separator.  The scan keeps
    the code units read since the last match ([cur], reversed); on a match
    at the current position it closes the segment and jumps behind the
    separator, which the structural recursion renders as [skip] code units
    still to pass over. *)
Fixpoint split_from (sep : JsString) (skip : nat) (cur s : JsString)
  : list JsString :=
  match s with
  | [] => [rev cur]
  | c :: s' =>
      match skip with
      | S n => split_from sep n cur s'
      | O =>
          if startsWith sep s
          then rev cur :: split_from sep (length sep - 1) [] s'
          else split_from sep 0 (c :: cur) s'
      end
  end.

Definition split (sep s : JsString) : list JsString :=
  match sep with
  | [] => List.map (fun c => [c]) s
  | _ :: _ => split_from sep 0 [] s
  end.

(** [Array.prototype.join]. *)
Fixpoint join (sep : JsString) (parts : list JsString) : JsString :=
  match parts with
  | [] => []
  | [p] => p
  | p :: ps => p ++ sep ++ join sep ps
  end.

(** Number of positions of [s] at which [sep] occurs. *)
Fixpoint occurrences (sep s : JsString) : nat :=
  match s with
  | [] => 0
  | _ :: s' => (if startsWith sep s then 1 else 0) + occurrences sep s'
  end.

(** A separator has no border when none of its proper suffixes is also a
    prefix of it: two occurrences of it can then never overlap. *)
Definition unbordered (sep : JsString) : bool :=
  forallb (fun k => negb (startsWith (skipn k sep) sep))
          (seq 1 (length sep - 1)).

End Js.

Import Js.

(** Divider syntax marker *)
Definition DIVIDER_MARKER : JsString := lit "{{divider}}".


(** ** Constants of [printer.js] *)

(** [Math.round] on an exact rational: the nearest integer, ties upwards. *)
Definition Math_round (x : Q) : Z := Qfloor (x + (1 # 2)).

(** Printer width in pixels for 80mm paper at 203dpi *)
Definition PRINTER_WIDTH_PX : Z := 576.

(** Footer image width (80% of printer width).  The product 460.8 is far
    from a rounding tie, so the exact computation and the floating-point
    one of the source round to the same integer. *)
Definition FOOTER_IMAGE_WIDTH_PX : Z :=
  Math_round (inject_Z PRINTER_WIDTH_PX * (8 # 10)).

(** Socket timeout in ms *)
Definition SOCKET_TIMEOUT : Z := 10000.

(** Image paths, relative to the project root *)
Definition HEADER_LOGO_PATH : string := "logo.png".
Definition FOOTER_IMAGE_PATH : string := "footer-image-1.png".
Definition DIVIDER_IMAGE_PATH : string := "divider-long.png".

(** Branded footer - always printed on every receipt *)
Definition BRANDED_FOOTER : JsString := lit "- - -

Unusual Coffee
Visit us at unusual.coffee

- - -

Thank you!".

(** The text ['\n\n'] that the source prints as a blank feed. *)
Definition BLANK_FEED : JsString := [10; 10]%N.

(** ** Directives and the printer they are written to *)

(** A Node [Buffer]: a sequence of bytes. *)
Definition Buffer := list N.

(** Which variable of [printReceipt] an image object is held in.  The four
    images are distinct objects even when their pixels coincide. *)
Inductive Role := Header | Divider | Footer | BodyImage.

Inductive Alignment := Align_lt | Align_ct | Align_rt.

Inductive TextStyle := Style_b | Style_NORMAL.

(** How an evaluation ends: with a value, with a thrown [Error] carrying
    its message, or not at all (an [await] on a promise nobody settles). *)
Inductive Completion (A : Type) :=
| Normal (a : A)
| Throw (message : string)
| Hang.
Arguments Normal {A} a.
Arguments Throw {A} message.
Arguments Hang {A}.

(** What [escpos.Image.load] hands to its callback. *)
Inductive LoadResult (I : Type) :=
| LoadError (message : string)
| LoadInvalid
| Loaded (image : I).
Arguments LoadError {I} message.
Arguments LoadInvalid {I}.
Arguments Loaded {I} image.

(** What the [sharp] pipeline of [processImage] ends with. *)
Inductive SharpResult :=
| SharpError (message : string)
| SharpOutput (data : Buffer).

(** The external capabilities [printer.js] consumes: the raster converter
    ([sharp], as driven by [processImage]) and the image decoder of the
    printer driver. *)
Class Capabilities := {
  Image : Type;
  sharp : Buffer -> Z -> SharpResult;
  Image_load : Buffer -> LoadResult Image
}.

Section Composer.
Context `{Capabilities}.

(** One call on the [escpos.Printer] object, as the driver receives it. *)
Inductive Directive :=
| Raw (bytes : Buffer)
| Text (content : JsString)
| Align (a : Alignment)
| Style (s : TextStyle)
| Raster (role : Role) (image : Image)
| Feed (n : Z)
| Cut.

(** The printer object is its buffer of directives, in call order; every
    method appends and returns the printer, which is what makes the calls
    of the source chain. *)
Definition Printer := list Directive.

Definition raw (bytes : Buffer) (printer : Printer) : Printer := printer ++ [Raw bytes].
Definition text (content : JsString) (printer : Printer) : Printer := printer ++ [Text content].
Definition align (a : Alignment) (printer : Printer) : Printer := printer ++ [Align a].
Definition style (s : TextStyle) (printer : Printer) : Printer := printer ++ [Style s].
Definition raster (role : Role) (image : Image) (printer : Printer) : Printer :=
  printer ++ [Raster role image].
Definition feed (n : Z) (printer : Printer) : Printer := printer ++ [Feed n].
Definition cut (printer : Printer) : Printer := printer ++ [Cut].

(** [Array.prototype.forEach], the callback receiving element and index. *)
Definition forEach {A St : Type} (callback : A -> nat -> St -> St)
    (array : list A) (st : St) : St :=
  snd (fold_left (fun acc x => (S (fst acc), callback x (fst acc) (snd acc)))
                 array (0, st)).

(** The optional [orderDetails] argument: absent ([null], [undefined] or
    another falsy value), a string, or a truthy value that is no string. *)
Inductive OrderDetails :=
| OrderAbsent
| OrderString (s : JsString)
| OrderOther.

(** The variables of [printReceipt] that the open callback closes over. *)
Record Job := {
  headerImage : Image;
  dividerImage : option Image;
  footerImage : option Image;
  bodyImage : option Image;
  bodySegments : list JsString;
  orderDetails : OrderDetails
}.

End Composer.

Notation "p |> f" := (f p) (at level 51, left associativity, only parsing).

Section Callback.
Context `{Capabilities}.

(** The callback of [bodySegments.forEach]. *)
Definition print_segment (job : Job) (segment : JsString) (index : nat)
    (printer : Printer) : Printer :=
  (* Print text segment (left aligned) *)
  let printer :=
    if truthy (trim segment)
    then printer |> align Align_lt |> text segment
    else printer in
  (* Print divider image after each segment except the last *)
  match dividerImage job with
  | Some image =>
      if (Z.of_nat index <? Z.of_nat (length (bodySegments job)) - 1)%Z
      then printer |> align Align_ct |> raster Divider image
      else printer
  | None => printer
  end.

(** The [try] block of the open callback, up to the branded footer. *)
Definition print_upto_footer (job : Job) (printer : Printer) : Printer :=
  (* Initialize and print header *)
  let printer :=
    printer |> raw [0x1b; 0x40]%N |> text BLANK_FEED |> align Align_ct
            |> raster Header (headerImage job) |> text BLANK_FEED in
  (* Print body segments with dividers *)
  let printer := forEach (print_segment job) (bodySegments job) printer in
  let printer := printer |> text BLANK_FEED in
  (* Body image (if provided) *)
  let printer :=
    match bodyImage job with
    | Some image => printer |> align Align_ct |> raster BodyImage image |> text BLANK_FEED
    | None => printer
    end in
  (* Branded footer (centered, bold, density 15) *)
  printer |> align Align_ct
          |> raw [0x1d; 0x28; 0x45; 0x02; 0x00; 0x31; 0x0f]%N
          |> style Style_b
          |> text BRANDED_FOOTER
          |> style Style_NORMAL
          |> raw [0x1d; 0x28; 0x45; 0x02; 0x00; 0x31; 0x08]%N
          |> text BLANK_FEED.

(** The rest of the [try] block: footer image, feed and cut. *)
Definition print_footer_and_cut (job : Job) (printer : Printer) : Printer :=
  let printer :=
    match footerImage job with
    | Some image => printer |> align Align_ct |> raster Footer image
    | None => printer
    end in
  printer |> feed 3 |> cut.

(** The whole [try] block, run on the printer that [new escpos.Printer]
    returns.  [orderDetails && orderDetails.trim()] throws a [TypeError]
    when [orderDetails] is truthy and has no [trim] method; what was
    written before stays in the buffer. *)
Definition print_job (job : Job) : Printer * Completion unit :=
  let printer := print_upto_footer job [] in
  (* Order details (if provided) - printed below branded footer *)
  match orderDetails job with
  | OrderOther => (printer, Throw "orderDetails.trim is not a function")
  | OrderAbsent => (print_footer_and_cut job printer, Normal tt)
  | OrderString s =>
      let printer :=
        if truthy s && truthy (trim s)
        then printer |> text BLANK_FEED |> align Align_lt |> text (trim s)
                     |> text BLANK_FEED
        else printer in
      (print_footer_and_cut job printer, Normal tt)
  end.

(** The directive sequence the callback builds. *)
Definition compose_receipt (job : Job) : list Directive := fst (print_job job).

End Callback.

(** ** The world [printReceipt] runs in *)

(** A file of [os.tmpdir()]: its name is a fixed prefix, the decimal
    [Date.now()] reading and [".png"]; the pair of prefix and reading
    determines it. *)
Abbreviation TempPath := (string * Z)%type.

(** What the event loop can deliver while the promise is awaited. *)
Inductive Event :=
| EvTimeout                      (* the [setTimeout] timer expires *)
| EvOpen (err : option string)   (* the driver calls the [open] callback *)
| EvClosed.                      (* the driver calls the [close] callback *)

Record World := {
  assets : gmap string Buffer;     (* image files of the project root *)
  tmpdir : gmap TempPath Buffer;   (* files of [os.tmpdir()] *)
  clock : nat -> Z;                (* successive [Date.now()] readings *)
  ticks : nat;                     (* readings taken so far *)
  schedule : list Event;           (* events to come, in order *)
  unlink_error : TempPath -> option string
    (* the message of the error [fs.unlinkSync] throws on a file of the
       temp directory that cannot be deleted (EPERM, EBUSY, ...) *)
}.

Definition with_tmpdir (d : gmap TempPath Buffer) (w : World) : World :=
  {| assets := assets w; tmpdir := d; clock := clock w; ticks := ticks w;
     schedule := schedule w; unlink_error := unlink_error w |}.

Definition with_ticks (n : nat) (w : World) : World :=
  {| assets := assets w; tmpdir := tmpdir w; clock := clock w; ticks := n;
     schedule := schedule w; unlink_error := unlink_error w |}.

Definition with_schedule (evs : list Event) (w : World) : World :=
  {| assets := assets w; tmpdir := tmpdir w; clock := clock w; ticks := ticks w;
     schedule := evs; unlink_error := unlink_error w |}.

Definition with_unlink_error (e : TempPath -> option string) (w : World) : World :=
  {| assets := assets w; tmpdir := tmpdir w; clock := clock w; ticks := ticks w;
     schedule := schedule w; unlink_error := e |}.

Inductive Promise := Pending | Resolved | Rejected (message : string).

Inductive DeviceState := NoDevice | Connecting | Open | Closed.

Section Pipeline.
Context `{Capabilities}.

(** The objects one call of [printReceipt] creates for the network phase:
    the promise, the timer, the device, the callbacks the driver still
    holds, and the printer. *)
Record Conn := {
  promise : Promise;
  timer : bool;                (* armed and not yet cleared or expired *)
  device : DeviceState;
  open_cb : option Job;        (* the open callback, until it is called *)
  close_cb : bool;             (* the close callback, until it is called *)
  printer : option Printer     (* the [escpos.Printer], once constructed *)
}.

Definition idle : Conn :=
  {| promise := Pending; timer := false; device := NoDevice; open_cb := None;
     close_cb := false; printer := None |}.

(** [resolve()] and [reject(err)]: only the first settles the promise. *)
Definition settle_promise (p : Promise) (c : Conn) : Conn :=
  match promise c with
  | Pending =>
      {| promise := p; timer := timer c; device := device c;
         open_cb := open_cb c; close_cb := close_cb c; printer := printer c |}
  | _ => c
  end.

Definition clearTimeout (c : Conn) : Conn :=
  {| promise := promise c; timer := false; device := device c;
     open_cb := open_cb c; close_cb := close_cb c; printer := printer c |}.

Definition with_device (d : DeviceState) (c : Conn) : Conn :=
  {| promise := promise c; timer := timer c; device := d;
     open_cb := open_cb c; close_cb := close_cb c; printer := printer c |}.

Definition with_open_cb (cb : option Job) (c : Conn) : Conn :=
  {| promise := promise c; timer := timer c; device := device c;
     open_cb := cb; close_cb := close_cb c; printer := printer c |}.

Definition with_close_cb (cb : bool) (c : Conn) : Conn :=
  {| promise := promise c; timer := timer c; device := device c;
     open_cb := open_cb c; close_cb := cb; printer := printer c |}.

Definition with_printer (p : Printer) (c : Conn) : Conn :=
  {| promise := promise c; timer := timer c; device := device c;
     open_cb := open_cb c; close_cb := close_cb c; printer := Some p |}.

(** The open callback of [printReceipt]. *)
Definition on_open (err : option string) (job : Job) (c : Conn) : Conn :=
  match err with
  | Some message =>
      c |> clearTimeout
        |> settle_promise (Rejected ("Failed to connect to printer: " ++ message))
  | None =>
      let c := with_device Open c in
      match print_job job with
      | (buffer, Normal _) =>
          (* [.close(cb)]: the driver flushes, closes and calls back *)
          c |> with_printer buffer |> with_close_cb true
      | (buffer, Throw message) =>
          c |> with_printer buffer |> clearTimeout |> with_device Closed
            |> settle_promise (Rejected ("Print failed: " ++ message))
      | (buffer, Hang) => c |> with_printer buffer
      end
  end.

(** One turn of the event loop. *)
Definition fire (e : Event) (c : Conn) : Conn :=
  match e with
  | EvTimeout =>
      if timer c
      then c |> clearTimeout |> settle_promise (Rejected "Printer connection timeout")
      else c
  | EvOpen err =>
      match open_cb c with
      | Some job => on_open err job (with_open_cb None c)
      | None => c
      end
  | EvClosed =>
      if close_cb c
      then c |> with_close_cb false |> with_device Closed |> clearTimeout
             |> settle_promise Resolved
      else c
  end.

(** [await new Promise(...)]: events are delivered until the promise is
    settled.  An armed timer is bound to expire: when nothing else is
    scheduled it is the timer that fires. *)
Fixpoint await_loop (evs : list Event) (c : Conn) : Conn * list Event :=
  match promise c with
  | Pending =>
      match evs with
      | [] => (fire EvTimeout c, [])
      | e :: evs' => await_loop evs' (fire e c)
      end
  | _ => (c, evs)
  end.

(** The frame of one call of [printReceipt]: the world, the local
    [tempFiles] array, the connection objects, and three ghost traces: the
    width each role's image was converted at, the temp files written, and
    the messages passed to [console.warn]. *)
Record Frame := {
  world : World;
  tempFiles : list TempPath;
  conn : Conn;
  converted : list (Role * Z);
  written : list TempPath;
  warnings : list string
}.

Definition with_world (w : World) (f : Frame) : Frame :=
  {| world := w; tempFiles := tempFiles f; conn := conn f;
     converted := converted f; written := written f; warnings := warnings f |}.

Definition with_conn (c : Conn) (f : Frame) : Frame :=
  {| world := world f; tempFiles := tempFiles f; conn := c;
     converted := converted f; written := written f; warnings := warnings f |}.

(** Computations of [printReceipt]: they change the frame and complete. *)
Definition M (A : Type) : Type := Frame -> Completion A * Frame.

Definition ret {A} (a : A) : M A := fun f => (Normal a, f).

Definition throw {A} (message : string) : M A := fun f => (Throw message, f).

Definition bind {A B} (m : M A) (k : A -> M B) : M B :=
  fun f =>
    match m f with
    | (Normal a, f') => k a f'
    | (Throw message, f') => (Throw message, f')
    | (Hang, f') => (Hang, f')
    end.

(** [try { body } catch (e) { handler }], [e.message] being all the
    handler uses. *)
Definition try_catch {A} (body : M A) (handler : string -> M A) : M A :=
  fun f =>
    match body f with
    | (Throw message, f') => handler message f'
    | r => r
    end.

(** [for (const x of array) { body }] *)
Fixpoint for_of {A} (array : list A) (body : A -> M unit) : M unit :=
  match array with
  | [] => ret tt
  | x :: rest => bind (body x) (fun _ => for_of rest body)
  end.

(** [try { body } finally { handler }]: the handler runs however the body
    completes, unless the body never completes. *)
Definition try_finally {A} (body : M A) (handler : M unit) : M A :=
  fun f =>
    match body f with
    | (Hang, f') => (Hang, f')
    | (r, f') =>
        match handler f' with
        | (Normal _, f'') => (r, f'')
        | (Throw message, f'') => (Throw message, f'')
        | (Hang, f'') => (Hang, f'')
        end
    end.

End Pipeline.

Notation "x <- m ;; k" := (bind m (fun x => k))
  (at level 100, m at next level, right associativity, only parsing).
Notation "m ;; k" := (bind m (fun _ => k))
  (at level 100, right associativity, only parsing).

(** ** [printReceipt] *)

Section PrintReceipt.
Context `{Capabilities}.

(** [fs.existsSync] and [fs.readFileSync] on a file of the project root. *)
Definition existsSync (path : string) : M bool :=
  fun f => (Normal (bool_decide (is_Some (assets (world f) !! path))), f).

Definition readFileSync (path : string) : M Buffer :=
  fun f =>
    match assets (world f) !! path with
    | Some data => (Normal data, f)
    | None => (Throw "ENOENT: no such file or directory", f)
    end.

Definition Date_now : M Z :=
  fun f =>
    let w := world f in
    (Normal (clock w (ticks w)), with_world (with_ticks (S (ticks w)) w) f).

(** [fs.writeFileSync] on a file of the temp directory: a file of that
    name is created or overwritten.  The write is taken to succeed. *)
Definition writeFileSync (path : TempPath) (data : Buffer) : M unit :=
  fun f =>
    let w := world f in
    (Normal tt,
     {| world := with_tmpdir (<[path := data]> (tmpdir w)) w;
        tempFiles := tempFiles f; conn := conn f; converted := converted f;
        written := written f ++ [path]; warnings := warnings f |}).

(** [tempFiles.push] *)
Definition tempFiles_push (path : TempPath) : M unit :=
  fun f =>
    (Normal tt,
     {| world := world f; tempFiles := tempFiles f ++ [path]; conn := conn f;
        converted := converted f; written := written f;
        warnings := warnings f |}).

(** Process an image for thermal printing.  The role is not an argument of
    the source function: it only labels the entry of the ghost trace. *)
Definition processImage (role : Role) (buffer : Buffer) (width : Z) : M Buffer :=
  fun f =>
    (match sharp buffer width with
     | SharpOutput data => Normal data
     | SharpError message => Throw message
     end,
     {| world := world f; tempFiles := tempFiles f; conn := conn f;
        converted := converted f ++ [(role, width)]; written := written f;
        warnings := warnings f |}).

(** Load an escpos Image from a file path *)
Definition loadEscposImage (filePath : TempPath) : M Image :=
  fun f =>
    match tmpdir (world f) !! filePath with
    | None => (Throw "Failed to load image: ENOENT: no such file or directory", f)
    | Some data =>
        match Image_load data with
        | LoadError message => (Throw ("Failed to load image: " ++ message), f)
        | LoadInvalid => (Throw "Failed to load image: invalid image data", f)
        | Loaded image => (Normal image, f)
        end
    end.

(** The five statements [printReceipt] repeats for each of its images:
    convert, name the temp file after the clock, write it, remember it,
    load it back. *)
Definition load_temp_image (role : Role) (prefix : string) (buffer : Buffer)
    (width : Z) : M Image :=
  processed <- processImage role buffer width ;;
  now <- Date_now ;;
  let tempPath := (prefix, now) in
  writeFileSync tempPath processed ;;
  tempFiles_push tempPath ;;
  loadEscposImage tempPath.

(** An optional image of the project root, loaded if the file exists. *)
Definition load_optional (role : Role) (path prefix : string) (width : Z)
    : M (option Image) :=
  present <- existsSync path ;;
  if present : bool then
    buffer <- readFileSync path ;;
    image <- load_temp_image role prefix buffer width ;;
    ret (Some image)
  else ret None.

(** [new Network(...)], the promise executor: [setTimeout], [device.open]. *)
Definition device_open (job : Job) : M unit :=
  fun f =>
    (Normal tt,
     with_conn {| promise := Pending; timer := true; device := Connecting;
                  open_cb := Some job; close_cb := false; printer := None |} f).

Definition await_promise : M unit :=
  fun f =>
    let '(c, evs) := await_loop (schedule (world f)) (conn f) in
    let f' := with_conn c (with_world (with_schedule evs (world f)) f) in
    match promise c with
    | Resolved => (Normal tt, f')
    | Rejected message => (Throw message, f')
    | Pending => (Hang, f')
    end.

(** The argument object of [printReceipt]. *)
Record ReceiptRequest := {
  body : JsString;
  bodyImageBuffer : option Buffer;
  req_orderDetails : OrderDetails
}.

(** The [try] block of [printReceipt], first part: the images are
    loaded and the body is split. *)
Definition load_images (req : ReceiptRequest) : M Job :=
  (* Load and process header logo *)
  present <- existsSync HEADER_LOGO_PATH ;;
  if negb present
  then throw "Header logo not found: logo.png must exist in project root"
  else
    headerBuffer <- readFileSync HEADER_LOGO_PATH ;;
    headerImage <- load_temp_image Header "receipt-header-" headerBuffer
                     PRINTER_WIDTH_PX ;;
    (* Load divider image if it exists *)
    dividerImage <- load_optional Divider DIVIDER_IMAGE_PATH "receipt-divider-"
                      PRINTER_WIDTH_PX ;;
    (* Process footer image (80% width) if it exists *)
    footerImage <- load_optional Footer FOOTER_IMAGE_PATH "receipt-footer-"
                     FOOTER_IMAGE_WIDTH_PX ;;
    (* Process optional body image (80% width) *)
    bodyImage <- match bodyImageBuffer req with
                 | Some buffer =>
                     image <- load_temp_image BodyImage "receipt-body-img-" buffer
                                FOOTER_IMAGE_WIDTH_PX ;;
                     ret (Some image)
                 | None => ret None
                 end ;;
    (* Split body by divider markers *)
    let bodySegments := split DIVIDER_MARKER (body req) in
    ret {| headerImage := headerImage; dividerImage := dividerImage;
           footerImage := footerImage; bodyImage := bodyImage;
           bodySegments := bodySegments;
           orderDetails := req_orderDetails req |}.

(** The [try] block of [printReceipt]: the loaded images and the segments
    are what the open callback closes over. *)
Definition printReceipt_try (req : ReceiptRequest) : M unit :=
  job <- load_images req ;;
  (* Create network device *)
  device_open job ;;
  await_promise.

(** [fs.existsSync] on a file of the temp directory. *)
Definition temp_existsSync (path : TempPath) : M bool :=
  fun f => (Normal (bool_decide (is_Some (tmpdir (world f) !! path))), f).

(** [fs.unlinkSync] on a file of the temp directory: the file is removed,
    or the call throws and the file stays. *)
Definition unlinkSync (path : TempPath) : M unit :=
  fun f =>
    let w := world f in
    match unlink_error w path with
    | Some message => (Throw message, f)
    | None =>
        match tmpdir w !! path with
        | Some _ =>
            (Normal tt, with_world (with_tmpdir (delete path (tmpdir w)) w) f)
        | None => (Throw "ENOENT: no such file or directory, unlink", f)
        end
    end.

(** [console.warn('Failed to delete temp file:', message)] *)
Definition console_warn (message : string) : M unit :=
  fun f =>
    (Normal tt,
     {| world := world f; tempFiles := tempFiles f; conn := conn f;
        converted := converted f; written := written f;
        warnings := warnings f ++ [message] |}).

(** The body of the clean-up loop: [fs.unlinkSync] guarded by
    [fs.existsSync], an error of [unlinkSync] being caught and logged. *)
Definition unlink_if_exists (tempPath : TempPath) : M unit :=
  present <- temp_existsSync tempPath ;;
  if present : bool
  then try_catch (unlinkSync tempPath) (fun message => console_warn message)
  else ret tt.

(** The [finally] block: clean up temp files. *)
Definition cleanup : M unit :=
  fun f => for_of (tempFiles f) unlink_if_exists f.

Definition start (w : World) : Frame :=
  {| world := w; tempFiles := []; conn := idle; converted := []; written := [];
     warnings := [] |}.

(** Print a receipt with auto-loaded header logo, body text, branded
    footer, and footer image. *)
Definition printReceipt (req : ReceiptRequest) (w : World)
    : Completion unit * Frame :=
  try_finally (printReceipt_try req) cleanup (start w).

(** Callbacks the driver still holds when [printReceipt] has returned are
    called as their events arrive. *)
Definition settle (f : Frame) : Frame :=
  with_conn (fold_left (fun c e => fire e c) (schedule (world f)) (conn f))
            (with_world (with_schedule [] (world f)) f).

(** The directive sequence a run builds, if its open callback is ever
    called with an open connection. *)
Definition emitted (req : ReceiptRequest) (w : World) : option (list Directive) :=
  printer (conn (settle (snd (printReceipt req w)))).

(** ** The request boundary: [POST /print] *)

(** A field of the parsed request body. *)
Inductive JsValue :=
| JsUndefined
| JsStr (s : JsString)
| JsOther (is_truthy : bool).   (* any value that is no string *)

Record HttpRequest := {
  field_body : JsValue;           (* [req.body.body] *)
  upload : option Buffer;         (* [req.file?.buffer] *)
  field_orderDetails : JsValue    (* [req.body.orderDetails] *)
}.

Record Response := {
  status : Z;
  ok : bool;
  error : option string
}.

(** [req.body.orderDetails || null] *)
Definition orderDetails_or_null (v : JsValue) : OrderDetails :=
  match v with
  | JsUndefined => OrderAbsent
  | JsStr s => if truthy s then OrderString s else OrderAbsent
  | JsOther t => if t then OrderOther else OrderAbsent
  end.

(** The handler of [POST /print].  It answers, if it answers, with a
    response; the second component is the frame of the [printReceipt]
    call, when the handler makes one. *)
Definition post_print (req : HttpRequest) (w : World)
    : option Response * option Frame :=
  match field_body req with
  | JsStr body =>
      (* Validate body text *)
      if negb (truthy body) || (length (trim body) =? 0)%nat
      then (Some {| status := 400; ok := false;
                    error := Some "Body text is required" |}, None)
      else if (4000 <? Z.of_nat (length body))%Z
      then (Some {| status := 400; ok := false;
                    error := Some "Body text exceeds 4000 characters" |}, None)
      else
        let '(r, f) :=
          printReceipt {| body := trim body;
                          bodyImageBuffer := upload req;
                          req_orderDetails :=
                            orderDetails_or_null (field_orderDetails req) |} w in
        match r with
        | Normal _ => (Some {| status := 200; ok := true; error := None |}, Some f)
        | Throw message =>
            (Some {| status := 500; ok := false;
                     error := Some (if String.eqb message "" then "Print failed"
                                    else message) |}, Some f)
        | Hang => (None, Some f)
        end
  | _ => (Some {| status := 400; ok := false;
                  error := Some "Body text is required" |}, None)
  end.

End PrintReceipt.

(** ** Vocabulary of the properties *)

Section Vocabulary.
Context `{Capabilities}.

(** [between d groups]: the groups in order, with [d] between every two
    consecutive ones and nowhere else. *)
Fixpoint between {A : Type} (d : list A) (groups : list (list A)) : list A :=
  match groups with
  | [] => []
  | g :: rest =>
      match rest with
      | [] => g
      | _ :: _ => g ++ d ++ between d rest
      end
  end.

(** What a body segment contributes: its left-aligned text, or nothing
    when it is blank. *)
Definition segment_group (segment : JsString) : list Directive :=
  if truthy (trim segment) then [Align Align_lt; Text segment] else [].

(** What a gap between two segments contributes: the centered divider
    raster, or nothing when there is no divider image. *)
Definition divider_group (divider : option Image) : list Directive :=
  match divider with
  | Some image => [Align Align_ct; Raster Divider image]
  | None => []
  end.

Definition is_divider (d : Directive) : bool :=
  match d with
  | Raster Divider _ => true
  | _ => false
  end.

Definition count_dividers (l : list Directive) : nat :=
  length (List.filter is_divider l).

(** The payloads of the [Text] directives of a sequence, in order. *)
Fixpoint texts (l : list Directive) : list JsString :=
  match l with
  | [] => []
  | Text content :: l' => content :: texts l'
  | _ :: l' => texts l'
  end.

(** The [Raster] directives of a sequence, in order. *)
Fixpoint rasters (l : list Directive) : list (Role * Image) :=
  match l with
  | [] => []
  | Raster role image :: l' => (role, image) :: rasters l'
  | _ :: l' => rasters l'
  end.

Definition is_blank_feed (d : Directive) : bool :=
  match d with
  | Text [10; 10]%N => true
  | _ => false
  end.

Fixpoint without_blank_feeds (l : list Directive) : list Directive :=
  match l with
  | [] => []
  | d :: l' =>
      if is_blank_feed d then without_blank_feeds l'
      else d :: without_blank_feeds l'
  end.

(** The directives for the order details of a request whose
    [orderDetails] is a string or absent. *)
Definition order_directives (details : option JsString) : list Directive :=
  match details with
  | Some s =>
      if truthy (trim s)
      then [Text BLANK_FEED; Align Align_lt; Text (trim s); Text BLANK_FEED]
      else []
  | None => []
  end.

Definition order_of (details : option JsString) : OrderDetails :=
  match details with
  | Some s => OrderString s
  | None => OrderAbsent
  end.

Definition with_order (details : OrderDetails) (job : Job) : Job :=
  {| headerImage := headerImage job; dividerImage := dividerImage job;
     footerImage := footerImage job; bodyImage := bodyImage job;
     bodySegments := bodySegments job; orderDetails := details |}.

(** The fixed order of the specification, step by step: init, blank feed,
    centered header raster, blank feed; per segment the left-aligned text,
    with the centered divider raster between segments; blank feed; the
    optional centered body image and a feed; the centered bold branded
    footer at density 15, density 8 restored afterwards; the optional
    left-aligned order details and a feed; the optional centered footer
    raster; feed(3); cut. *)
Definition fixed_order (job : Job) : list Directive :=
  [Raw [0x1b; 0x40]%N; Text BLANK_FEED; Align Align_ct;
   Raster Header (headerImage job); Text BLANK_FEED]
  ++ between (divider_group (dividerImage job))
             (List.map segment_group (bodySegments job))
  ++ [Text BLANK_FEED]
  ++ match bodyImage job with
     | Some image => [Align Align_ct; Raster BodyImage image; Text BLANK_FEED]
     | None => []
     end
  ++ [Align Align_ct; Raw [0x1d; 0x28; 0x45; 0x02; 0x00; 0x31; 0x0f]%N;
      Style Style_b; Text BRANDED_FOOTER; Style Style_NORMAL;
      Raw [0x1d; 0x28; 0x45; 0x02; 0x00; 0x31; 0x08]%N]
  ++ match orderDetails job with
     | OrderString s =>
         if truthy (trim s)
         then [Align Align_lt; Text (trim s); Text BLANK_FEED]
         else []
     | _ => []
     end
  ++ match footerImage job with
     | Some image => [Align Align_ct; Raster Footer image]
     | None => []
     end
  ++ [Feed 3; Cut].

(** The parts of the sequence the callback writes, in its order. *)
Definition header_part (job : Job) : list Directive :=
  [Raw [0x1b; 0x40]%N; Text BLANK_FEED; Align Align_ct;
   Raster Header (headerImage job); Text BLANK_FEED].

Definition body_part (job : Job) : list Directive :=
  between (divider_group (dividerImage job))
          (List.map segment_group (bodySegments job)).

Definition body_image_part (job : Job) : list Directive :=
  match bodyImage job with
  | Some image => [Align Align_ct; Raster BodyImage image; Text BLANK_FEED]
  | None => []
  end.

Definition branded_part : list Directive :=
  [Align Align_ct; Raw [0x1d; 0x28; 0x45; 0x02; 0x00; 0x31; 0x0f]%N;
   Style Style_b; Text BRANDED_FOOTER; Style Style_NORMAL;
   Raw [0x1d; 0x28; 0x45; 0x02; 0x00; 0x31; 0x08]%N; Text BLANK_FEED].

Definition footer_part (job : Job) : list Directive :=
  match footerImage job with
  | Some image => [Align Align_ct; Raster Footer image]
  | None => []
  end.

(** The width at which the code converts the image of each role. *)
Definition role_width (role : Role) : Z :=
  match role with
  | Header | Divider => PRINTER_WIDTH_PX
  | Footer | BodyImage => FOOTER_IMAGE_WIDTH_PX
  end.

(** The width the specification gives each role: the full printer width
    for the header, the fixed fraction for the three others. *)
Definition specified_width (role : Role) : Z :=
  match role with
  | Header => PRINTER_WIDTH_PX
  | Divider | Footer | BodyImage => FOOTER_IMAGE_WIDTH_PX
  end.

(** An image file turned into the image object the callback prints: the
    conversion and the decoding, without the temp file in between. *)
Definition converted_image (buffer : Buffer) (width : Z) : option Image :=
  match sharp buffer width with
  | SharpOutput data =>
      match Image_load data with
      | Loaded image => Some image
      | _ => None
      end
  | SharpError _ => None
  end.

Definition optional_image (file : option Buffer) (width : Z)
    : option (option Image) :=
  match file with
  | Some buffer =>
      match converted_image buffer width with
      | Some image => Some (Some image)
      | None => None
      end
  | None => Some None
  end.

(** The job as a function of the asset files and the request alone. *)
Definition resolve_job (files : gmap string Buffer) (req : ReceiptRequest)
    : option Job :=
  match files !! HEADER_LOGO_PATH with
  | None => None
  | Some headerBuffer =>
      match converted_image headerBuffer PRINTER_WIDTH_PX,
            optional_image (files !! DIVIDER_IMAGE_PATH) PRINTER_WIDTH_PX,
            optional_image (files !! FOOTER_IMAGE_PATH) FOOTER_IMAGE_WIDTH_PX,
            optional_image (bodyImageBuffer req) FOOTER_IMAGE_WIDTH_PX with
      | Some header, Some divider, Some footer, Some image =>
          Some {| headerImage := header; dividerImage := divider;
                  footerImage := footer; bodyImage := image;
                  bodySegments := split DIVIDER_MARKER (body req);
                  orderDetails := req_orderDetails req |}
      | _, _, _, _ => None
      end
  end.

(** What holds of the frame throughout the loading phase of a run started
    in the world [w0]: the project root, the schedule and the connection
    objects are untouched; every conversion was made at the width of its
    role; the files written are the files remembered in [tempFiles], they
    are all in the temp directory, and no other file of the temp
    directory has changed; nothing has been logged. *)
Record sound (w0 : World) (f : Frame) : Prop := {
  sound_assets : assets (world f) = assets w0;
  sound_schedule : schedule (world f) = schedule w0;
  sound_conn : conn f = idle;
  sound_widths : Forall (fun e => snd e = role_width (fst e)) (converted f);
  sound_tracked : tempFiles f = written f;
  sound_frame : forall p, p ∉ written f ->
                  tmpdir (world f) !! p = tmpdir w0 !! p;
  sound_present : forall p, p ∈ written f -> is_Some (tmpdir (world f) !! p);
  sound_unlink : unlink_error (world f) = unlink_error w0;
  sound_quiet : warnings f = []
}.

(** [keeps I m Q]: run from a frame satisfying [I], the computation [m]
    completes, leaves a frame satisfying [I], and returns only values
    satisfying [Q]. *)
Definition keeps {A : Type} (I : Frame -> Prop) (m : M A) (Q : A -> Prop)
    : Prop :=
  forall f, I f ->
    I (snd (m f)) /\ fst (m f) <> Hang /\
    forall a, fst (m f) = Normal a -> Q a.

(** The frame after the [finally] block. *)
Definition cleaned (f : Frame) : Frame := snd (cleanup f).


(** What the clean-up loop logs for a file, the temp directory being [d]:
    the error of its deletion, if the file is there. *)
Definition logged (w : World) (d : gmap TempPath Buffer) (p : TempPath)
    : option string :=
  match d !! p with
  | Some _ => unlink_error w p
  | None => None
  end.

(** How the awaited promise completes. *)
Definition outcome (p : Promise) : Completion unit :=
  match p with
  | Resolved => Normal tt
  | Rejected message => Throw message
  | Pending => Hang
  end.

(** As long as the promise is pending its timer is armed. *)
Definition armed (c : Conn) : Prop :=
  promise c = Pending -> timer c = true.

(** The connection objects of a run whose open callback closes over
    [job]: the callback is that one, and what the printer holds, once it
    exists, is what the callback builds. *)
Definition built (job : Job) (c : Conn) : Prop :=
  (open_cb c = Some job /\ printer c = None) \/
  (open_cb c = None /\
   (printer c = None \/ printer c = Some (compose_receipt job))).

(** The connection objects right after [device.open] has been called. *)
Definition opened (job : Job) : Conn :=
  {| promise := Pending; timer := true; device := Connecting;
     open_cb := Some job; close_cb := false; printer := None |}.

End Vocabulary.

(** ** A concrete setting, for the examples *)

(** A converter that rejects the empty buffer and a decoder for which the
    converted bytes are the image. *)
#[local] Instance sample_capabilities : Capabilities := {|
  Image := Buffer;
  sharp := fun buffer _ =>
    match buffer with
    | [] => SharpError "Input buffer is empty"
    | _ :: _ => SharpOutput buffer
    end;
  Image_load := fun data => Loaded data
|}.

Definition sample_clock (n : nat) : Z := 1700000000000 + Z.of_nat n.

(** A project root with the logo and the divider, an empty temp directory
    and a printer that connects and prints. *)
Definition sample_world : World :=
  {| assets := <[HEADER_LOGO_PATH := [1; 2; 3]%N]>
                 (<[DIVIDER_IMAGE_PATH := [4; 5]%N]> ∅);
     tmpdir := ∅;
     clock := sample_clock;
     ticks := 0;
     schedule := [EvOpen None; EvClosed];
     unlink_error := fun _ => None |}.

(** The same project root in front of a printer that answers too late. *)
Definition slow_world : World :=
  with_schedule [EvTimeout; EvOpen None; EvClosed] sample_world.

(** A project root without the logo. *)
Definition bare_world : World :=
  {| assets := ∅; tmpdir := ∅; clock := sample_clock; ticks := 0;
     schedule := [EvOpen None; EvClosed]; unlink_error := fun _ => None |}.

(** The same project root again, at another time, with files of other
    processes in the temp directory and a printer that refuses. *)
Definition crowded_world : World :=
  {| assets := assets sample_world;
     tmpdir := <[("receipt-header-"%string, 5%Z) := [9]%N]>
                 (<[("upload-"%string, 7%Z) := [8; 8]%N]> ∅);
     clock := fun n => (3 * Z.of_nat n)%Z;
     ticks := 4;
     schedule := [EvClosed; EvOpen None; EvTimeout; EvClosed];
     unlink_error := fun _ => None |}.

(** The crowded world with one more file in its project root. *)
Definition annotated_world : World :=
  {| assets := <["README.md"%string := [35; 32]%N]> (assets crowded_world);
     tmpdir := tmpdir crowded_world;
     clock := clock crowded_world;
     ticks := ticks crowded_world;
     schedule := schedule crowded_world;
     unlink_error := unlink_error crowded_world |}.


(** The sample world where the temp file of the header, once written,
    cannot be deleted. *)
Definition locked_world : World :=
  with_unlink_error
    (fun p => if String.eqb (fst p) "receipt-header-"
              then Some "EPERM: operation not permitted, unlink"%string
              else None)
    sample_world.

Definition refused_world : World :=
  with_schedule [EvOpen (Some "connect ECONNREFUSED")] sample_world.

(** A project root whose divider file is empty, which the converter
    rejects. *)
Definition corrupt_world : World :=
  {| assets := <[HEADER_LOGO_PATH := [1; 2; 3]%N]>
                 (<[DIVIDER_IMAGE_PATH := []]> ∅);
     tmpdir := ∅;
     clock := sample_clock;
     ticks := 0;
     schedule := [EvOpen None; EvClosed];
     unlink_error := fun _ => None |}.

(** A request body of 4001 code units. *)
Definition oversized : HttpRequest :=
  {| field_body := JsStr (repeat 97%N 4001); upload := None;
     field_orderDetails := JsUndefined |}.

Definition hello_world : ReceiptRequest :=
  {| body := lit "Hello{{divider}}World"; bodyImageBuffer := None;
     req_orderDetails := OrderAbsent |}.

(** ** Vocabulary of the further properties *)

Section MoreVocabulary.
Context `{Capabilities}.

(** The raster of an optional image, if the image is there. *)
Definition optional_raster (role : Role) (image : option Image)
    : list (Role * Image) :=
  match image with
  | Some i => [(role, i)]
  | None => []
  end.

(** [yields I m a]: run from a frame satisfying [I], the computation [m]
    leaves a frame satisfying [I] and returns [a]. *)
Definition yields {A : Type} (I : Frame -> Prop) (m : M A) (a : A) : Prop :=
  forall f, I f -> I (snd (m f)) /\ fst (m f) = Normal a.

(** The errors of the network phase: the timer, a connection error handed
    to the open callback by the driver, the exception of the [try] block. *)
Definition network_error (events : list Event) (message : string) : Prop :=
  message = "Printer connection timeout"
  \/ (exists e, In (EvOpen (Some e)) events
                /\ message = ("Failed to connect to printer: " ++ e)%string)
  \/ message = "Print failed: orderDetails.trim is not a function".

(** What holds of the connection objects of a run whose callback closes
    over [job], whatever events have been delivered: the close callback
    is only awaited once the whole receipt has been written, and the
    promise is only resolved once that callback has come. *)
Record orderly (job : Job) (c : Conn) : Prop := {
  orderly_cb : open_cb c = Some job \/ open_cb c = None;
  orderly_closing :
    close_cb c = true ->
    open_cb c = None /\ device c = Open
    /\ printer c = Some (compose_receipt job)
    /\ snd (print_job job) = Normal tt;
  orderly_resolved :
    promise c = Resolved ->
    open_cb c = None /\ close_cb c = false /\ device c = Closed
    /\ timer c = false
    /\ printer c = Some (compose_receipt job)
    /\ snd (print_job job) = Normal tt
}.

(** The prefixes of the temp file names, in the order of the loading
    phase. *)
Definition TEMP_PREFIXES : list string :=
  ["receipt-header-"; "receipt-divider-"; "receipt-footer-";
   "receipt-body-img-"]%string.

(** After [k] of the four images: the files written bear some of the
    first [k] prefixes, in their order, and the successive readings of the
    clock, one reading per file. *)
Record named (k : nat) (w0 : World) (f : Frame) : Prop := {
  named_prefixes : (fst <$> written f) `sublist_of` take k TEMP_PREFIXES;
  named_clock : clock (world f) = clock w0;
  named_ticks : ticks (world f) = ticks w0 + length (written f);
  named_stamps :
    (snd <$> written f)
    = (clock w0 <$> seq (ticks w0) (length (written f)))
}.

(** [moves P m Q]: run from a frame satisfying [P], the computation [m]
    leaves a frame satisfying [Q], however it completes. *)
Definition moves {A : Type} (P : Frame -> Prop) (m : M A) (Q : Frame -> Prop)
    : Prop :=
  forall f, P f -> Q (snd (m f)).

(** The validation of [POST /print]: the body is a string, not blank, and
    at most 4000 code units long. *)
Definition valid_body (req : HttpRequest) (s : JsString) : Prop :=
  field_body req = JsStr s /\ truthy (trim s) = true /\ length s <= 4000.

(** The argument the handler calls [printReceipt] with. *)
Definition receipt_request (req : HttpRequest) (s : JsString) : ReceiptRequest :=
  {| body := trim s; bodyImageBuffer := upload req;
     req_orderDetails := orderDetails_or_null (field_orderDetails req) |}.

End MoreVocabulary.

(** ** The test print script ([test-print.js]) *)

Section TestPrint.
Context `{Capabilities}.

Inductive TestStyle :=
| TestStyle_b | TestStyle_NORMAL | TestStyle_u | TestStyle_u2 | TestStyle_bu
| TestStyle_i.

Inductive Font := Font_a | Font_b.

(** The calls the script makes on its [escpos.Printer]. *)
Inductive TestDirective :=
| TRaw (bytes : Buffer)
| TAlign (a : Alignment)
| TRaster (image : Image)
| TText (content : JsString)
| TStyle (s : TestStyle)
| TFont (f : Font)
| TSize (width height : Z)
| TBarcode (code type : JsString) (width height : Z) (position : JsString)
| TQrcode (content : JsString) (version : Z) (level : JsString) (size : Z)
| TFeed (n : Z)
| TCut.

(** A method call on the printer: it appends to the buffer. *)
Definition call (d : TestDirective) (printer : list TestDirective)
    : list TestDirective :=
  printer ++ [d].

(** Separator line helpers ([sep] and [sepThin] in the source) *)
Definition sepThick : JsString := lit "================================".
Definition sepThin : JsString := lit "--------------------------------".

(** The text ['\n']. *)
Definition NEWLINE : JsString := [10]%N.

(** [GS ( E]: set the print density. *)
Definition density (level : N) : Buffer :=
  [0x1d; 0x28; 0x45; 0x02; 0x00; 0x31; level]%N.

(** The chain of calls of the script, from the reset to the cut; [now]
    is what [new Date().toLocaleString()] gives. *)
Definition test_chain (image : Image) (now : JsString) : list TestDirective :=
  []
  (* Initialize *)
  |> call (TRaw [0x1b; 0x40]%N)
  (* === HEADER WITH LOGO === *)
  |> call (TAlign Align_ct)
  |> call (TRaster image)
  |> call (TText NEWLINE)
  |> call (TStyle TestStyle_b)
  |> call (TText (lit "FONT & STYLE TEST PRINT"))
  |> call (TStyle TestStyle_NORMAL)
  |> call (TText NEWLINE)
  |> call (TText sepThick)
  |> call (TText BLANK_FEED)
  (* === FONT A vs FONT B === *)
  |> call (TAlign Align_lt)
  |> call (TText (lit "FONT COMPARISON"))
  |> call (TText NEWLINE)
  |> call (TText sepThin)
  |> call (TText NEWLINE)
  |> call (TFont Font_a)
  |> call (TText (lit "Font A: ABCDEFGHIJKLMNOPQRSTUVWXYZ"))
  |> call (TText NEWLINE)
  |> call (TText (lit "Font A: abcdefghijklmnopqrstuvwxyz"))
  |> call (TText NEWLINE)
  |> call (TText (lit "Font A: 0123456789 !@#$%^&*()"))
  |> call (TText NEWLINE)
  |> call (TFont Font_b)
  |> call (TText (lit "Font B: ABCDEFGHIJKLMNOPQRSTUVWXYZ"))
  |> call (TText NEWLINE)
  |> call (TText (lit "Font B: abcdefghijklmnopqrstuvwxyz"))
  |> call (TText NEWLINE)
  |> call (TText (lit "Font B: 0123456789 !@#$%^&*()"))
  |> call (TText NEWLINE)
  |> call (TFont Font_a)
  |> call (TText NEWLINE)
  (* === TEXT STYLES === *)
  |> call (TText (lit "TEXT STYLES"))
  |> call (TText NEWLINE)
  |> call (TText sepThin)
  |> call (TText NEWLINE)
  |> call (TText (lit "Normal text (default)"))
  |> call (TText NEWLINE)
  |> call (TStyle TestStyle_b)
  |> call (TText (lit "Bold text (style b)"))
  |> call (TStyle TestStyle_NORMAL)
  |> call (TText NEWLINE)
  |> call (TStyle TestStyle_u)
  |> call (TText (lit "Underlined text (style u)"))
  |> call (TStyle TestStyle_NORMAL)
  |> call (TText NEWLINE)
  |> call (TStyle TestStyle_u2)
  |> call (TText (lit "Double underline (style u2)"))
  |> call (TStyle TestStyle_NORMAL)
  |> call (TText NEWLINE)
  |> call (TStyle TestStyle_bu)
  |> call (TText (lit "Bold + Underline (style bu)"))
  |> call (TStyle TestStyle_NORMAL)
  |> call (TText NEWLINE)
  |> call (TStyle TestStyle_i)
  |> call (TText (lit "Inverted/Reverse (style i)"))
  |> call (TStyle TestStyle_NORMAL)
  |> call (TText BLANK_FEED)
  (* === SIZE VARIATIONS === *)
  |> call (TText (lit "SIZE VARIATIONS"))
  |> call (TText NEWLINE)
  |> call (TText sepThin)
  |> call (TText NEWLINE)
  |> call (TSize 1 1)
  |> call (TText (lit "Size 1x1 (normal)"))
  |> call (TSize 1 1)
  |> call (TText NEWLINE)
  |> call (TSize 2 1)
  |> call (TText (lit "Size 2x1 (double width)"))
  |> call (TSize 1 1)
  |> call (TText NEWLINE)
  |> call (TSize 1 2)
  |> call (TText (lit "Size 1x2 (double height)"))
  |> call (TSize 1 1)
  |> call (TText NEWLINE)
  |> call (TSize 2 2)
  |> call (TText (lit "Size 2x2 (double both)"))
  |> call (TSize 1 1)
  |> call (TText BLANK_FEED)
  (* === ALIGNMENT === *)
  |> call (TText (lit "ALIGNMENT"))
  |> call (TText NEWLINE)
  |> call (TText sepThin)
  |> call (TText NEWLINE)
  |> call (TAlign Align_lt)
  |> call (TText (lit "Left aligned text"))
  |> call (TText NEWLINE)
  |> call (TAlign Align_ct)
  |> call (TText (lit "Center aligned text"))
  |> call (TText NEWLINE)
  |> call (TAlign Align_rt)
  |> call (TText (lit "Right aligned text"))
  |> call (TText NEWLINE)
  |> call (TAlign Align_lt)
  |> call (TText NEWLINE)
  (* === DENSITY TEST === *)
  |> call (TText (lit "DENSITY / DARKNESS TEST"))
  |> call (TText NEWLINE)
  |> call (TText sepThin)
  |> call (TText NEWLINE)
  |> call (TText (lit "(Note: Density control varies by printer)"))
  |> call (TText BLANK_FEED)
  (* Density level 1 (lighter) *)
  |> call (TRaw (density 0x01))
  |> call (TText (lit "Density 1 (lightest): Sample text"))
  |> call (TText NEWLINE)
  (* Density level 4 (medium-light) *)
  |> call (TRaw (density 0x04))
  |> call (TText (lit "Density 4 (light): Sample text"))
  |> call (TText NEWLINE)
  (* Density level 8 (default/medium) *)
  |> call (TRaw (density 0x08))
  |> call (TText (lit "Density 8 (default): Sample text"))
  |> call (TText NEWLINE)
  (* Density level 12 (darker) *)
  |> call (TRaw (density 0x0c))
  |> call (TText (lit "Density 12 (dark): Sample text"))
  |> call (TText NEWLINE)
  (* Density level 15 (darkest) *)
  |> call (TRaw (density 0x0f))
  |> call (TText (lit "Density 15 (darkest): Sample text"))
  |> call (TText NEWLINE)
  (* Reset to default density *)
  |> call (TRaw (density 0x08))
  |> call (TText NEWLINE)
  (* === BARCODE SAMPLE === *)
  |> call (TText (lit "BARCODE SAMPLE"))
  |> call (TText NEWLINE)
  |> call (TText sepThin)
  |> call (TText NEWLINE)
  |> call (TAlign Align_ct)
  |> call (TBarcode (lit "123456789012") (lit "EAN13") 2 60 (lit "BLW"))
  |> call (TText BLANK_FEED)
  (* === QR CODE SAMPLE === *)
  |> call (TText (lit "QR CODE SAMPLE"))
  |> call (TText NEWLINE)
  |> call (TText sepThin)
  |> call (TText NEWLINE)
  |> call (TQrcode (lit "https://example.com") 1 (lit "M") 6)
  |> call (TText BLANK_FEED)
  (* === FOOTER === *)
  |> call (TAlign Align_ct)
  |> call (TText sepThick)
  |> call (TText NEWLINE)
  |> call (TFont Font_b)
  |> call (TText (lit "Test print completed"))
  |> call (TText NEWLINE)
  |> call (TText now)
  |> call (TFont Font_a)
  |> call (TText NEWLINE)
  (* Feed and cut *)
  |> call (TFeed 4)
  |> call TCut.

(** How the script ends: it returns after a successful print, the process
    exits with a code, or the awaited promise is never settled. *)
Inductive TestOutcome :=
| TestPrinted                       (* [testPrint] returns *)
| TestExit (code : Z)               (* [process.exit] in the [catch] block *)
| TestRejected (message : string)   (* the [finally] block throws *)
| TestStuck.

Record TestRun := {
  test_outcome : TestOutcome;
  test_world : World;
  test_printed : option (list TestDirective)
}.

(** The script sets no timer: the promise waits for the open callback,
    and after the print for the close callback, however long they take.
    Other events have no callback here and pass. *)
Fixpoint await_open (evs : list Event) : option (option string * list Event) :=
  match evs with
  | [] => None
  | EvOpen err :: evs' => Some (err, evs')
  | _ :: evs' => await_open evs'
  end.

Fixpoint await_close (evs : list Event) : option (list Event) :=
  match evs with
  | [] => None
  | EvClosed :: evs' => Some evs'
  | _ :: evs' => await_close evs'
  end.

(** The [finally] block of the script.  Here no [try] guards
    [fs.unlinkSync]: the error it throws, if any, is returned. *)
Definition test_cleanup (tempFilePath : option TempPath) (w : World)
    : option string * World :=
  match tempFilePath with
  | Some path =>
      match tmpdir w !! path with
      | Some _ =>
          match unlink_error w path with
          | Some message => (Some message, w)
          | None => (None, with_tmpdir (delete path (tmpdir w)) w)
          end
      | None => (None, w)
      end
  | None => (None, w)
  end.

(** [testPrint].  Every error of the [try] block is caught by the [catch]
    block, which calls [process.exit(1)]: the process ends there, before
    the [finally] block.  [now] is the text of the date printed in the footer. *)
Definition testPrint (now : JsString) (w : World) : TestRun :=
  (* Process logo image *)
  let logoPath := "logo.png"%string in
  match assets w !! logoPath with
  | None =>
      {| test_outcome := TestExit 1; test_world := w; test_printed := None |}
  | Some imageBuffer =>
      match sharp imageBuffer PRINTER_WIDTH_PX with
      | SharpError _ =>
          {| test_outcome := TestExit 1; test_world := w; test_printed := None |}
      | SharpOutput processedImage =>
          let tempFilePath := ("test-print-"%string, clock w (ticks w)) in
          let w :=
            with_tmpdir (<[tempFilePath := processedImage]> (tmpdir w))
                        (with_ticks (S (ticks w)) w) in
          match await_open (schedule w) with
          | None =>
              {| test_outcome := TestStuck; test_world := with_schedule [] w;
                 test_printed := None |}
          | Some (Some err, evs) =>
              {| test_outcome := TestExit 1; test_world := with_schedule evs w;
                 test_printed := None |}
          | Some (None, evs) =>
              match
                match tmpdir w !! tempFilePath with
                | Some data => Image_load data
                | None => LoadError "ENOENT: no such file or directory"
                end
              with
              | Loaded image =>
                  let printed := Some (test_chain image now) in
                  match await_close evs with
                  | Some evs' =>
                      let '(thrown, w') :=
                        test_cleanup (Some tempFilePath) (with_schedule evs' w) in
                      {| test_outcome := match thrown with
                                         | Some message => TestRejected message
                                         | None => TestPrinted
                                         end;
                         test_world := w';
                         test_printed := printed |}
                  | None =>
                      {| test_outcome := TestStuck;
                         test_world := with_schedule [] w;
                         test_printed := printed |}
                  end
              | _ =>
                  {| test_outcome := TestExit 1;
                     test_world := with_schedule evs w; test_printed := None |}
              end
          end
      end
  end.

End TestPrint.

(** ** More of the concrete setting *)

(** The job of [hello_world] in [sample_world]. *)
Definition sample_job : Job :=
  {| headerImage := [1; 2; 3]%N; dividerImage := Some [4; 5]%N;
     footerImage := None; bodyImage := None;
     bodySegments := [lit "Hello"; lit "World"];
     orderDetails := OrderAbsent |}.

(** A printer that connects but confirms the close too late. *)
Definition busy_world : World :=
  with_schedule [EvOpen None; EvTimeout; EvClosed] sample_world.

(** A printer that never answers. *)
Definition silent_world : World := with_schedule [] sample_world.

(** A temp directory in which no file can be deleted. *)
Definition sticky_world : World :=
  with_unlink_error (fun _ => Some "EBUSY: resource busy or locked, unlink"%string)
                    sample_world.

(** A request whose order details are a number. *)
Definition odd_details : ReceiptRequest :=
  {| body := lit "Hello"; bodyImageBuffer := None;
     req_orderDetails := OrderOther |}.

Definition odd_job : Job :=
  {| headerImage := [1; 2; 3]%N; dividerImage := Some [4; 5]%N;
     footerImage := None; bodyImage := None;
     bodySegments := [lit "Hello"];
     orderDetails := OrderOther |}.

(** A request whose order details hold the marker of the body. *)
Definition marked_details : ReceiptRequest :=
  {| body := lit "Hello{{divider}}World"; bodyImageBuffer := None;
     req_orderDetails := OrderString (lit " #1 {{divider}} ") |}.

Definition hello_http : HttpRequest :=
  {| field_body := JsStr (lit "  Hello{{divider}}World ");
     upload := None; field_orderDetails := JsUndefined |}.

Definition odd_http : HttpRequest :=
  {| field_body := JsStr (lit "Hello"); upload := None;
     field_orderDetails := JsOther true |}.

(** * Properties *)

(** ** Strings: [split], [trim] *)

Section JsFacts.

Example split_hello_world :
  split DIVIDER_MARKER (lit "Hello{{divider}}World") = [lit "Hello"; lit "World"].
Proof. reflexivity. Qed.

Example split_adjacent_and_trailing :
  split DIVIDER_MARKER (lit "a{{divider}}{{divider}} b {{divider}}")
  = [lit "a"; []; lit " b "; []].
Proof. reflexivity. Qed.

Example split_empty_body : split DIVIDER_MARKER [] = [[]].
Proof. reflexivity. Qed.

Example trim_inner_spaces : trim (lit "  a b  ") = lit "a b".
Proof. reflexivity. Qed.

Example footer_width_value : FOOTER_IMAGE_WIDTH_PX = 461%Z.
Proof. reflexivity. Qed.

Lemma startsWith_cons a sep b s :
  startsWith (a :: sep) (b :: s) = true -> a = b /\ startsWith sep s = true.
Proof.
  simpl. intros Hm. apply andb_true_iff in Hm as [Hab Hrest].
  apply N.eqb_eq in Hab. auto.
Qed.

(** Two prefixes of one string: the shorter is a prefix of the longer. *)
Lemma startsWith_both : forall b a s,
  startsWith a s = true -> startsWith b s = true ->
  length b <= length a -> startsWith b a = true.
Proof.
  induction b as [|y b IH]; intros a s Ha Hb Hlen; [reflexivity|].
  destruct a as [|x a]; [simpl in Hlen; lia|].
  destruct s as [|z s]; [discriminate Ha|].
  apply startsWith_cons in Ha as [-> Ha].
  apply startsWith_cons in Hb as [-> Hb].
  simpl. rewrite N.eqb_refl. simpl.
  apply (IH a s); auto. simpl in Hlen. lia.
Qed.

Lemma unbordered_spec sep k :
  unbordered sep = true -> 1 <= k < length sep ->
  startsWith (skipn k sep) sep = false.
Proof.
  unfold unbordered. intros Hu Hk.
  rewrite forallb_forall in Hu.
  specialize (Hu k). rewrite in_seq in Hu.
  apply negb_true_iff, Hu. lia.
Qed.

(** While the scan passes over a matched separator, what is left of the
    separator is a prefix of what is left of the string. *)
Lemma split_from_length sep :
  unbordered sep = true ->
  forall s n cur,
    n <= length sep - 1 ->
    startsWith (skipn (length sep - n) sep) s = true ->
    length (split_from sep n cur s) = S (occurrences sep s).
Proof.
  intros Hu. induction s as [|c s IH]; intros n cur Hn Hpend; [reflexivity|].
  destruct n as [|n]; cbn [split_from occurrences].
  - destruct (startsWith sep (c :: s)) eqn:Hm.
    + cbn [length]. rewrite IH; [reflexivity|lia|].
      destruct sep as [|a sep]; [reflexivity|].
      apply startsWith_cons in Hm as [_ Hm].
      cbn [length]. replace (S (length sep) - (S (length sep) - 1)) with 1 by lia.
      exact Hm.
    + rewrite IH; [reflexivity|lia|].
      rewrite Nat.sub_0_r, skipn_all. reflexivity.
  - assert (Hk : 1 <= length sep - S n < length sep) by lia.
    assert (Hno : startsWith sep (c :: s) = false).
    { destruct (startsWith sep (c :: s)) eqn:Hm; [|reflexivity].
      rewrite <- (unbordered_spec sep (length sep - S n) Hu Hk).
      symmetry. apply (startsWith_both _ _ (c :: s)); auto.
      rewrite length_skipn. lia. }
    rewrite Hno.
    destruct (lookup_lt_is_Some_2 sep (length sep - S n)) as [x Hx]; [lia|].
    rewrite (drop_S _ _ _ Hx) in Hpend.
    apply startsWith_cons in Hpend as [_ Hpend].
    replace (S (length sep - S n)) with (length sep - n) in Hpend by lia.
    apply IH; [lia|exact Hpend].
Qed.

Lemma DIVIDER_MARKER_unbordered : unbordered DIVIDER_MARKER = true.
Proof. reflexivity. Qed.

(** Splitting on the divider marker yields one segment more than the
    marker has occurrences. *)
Lemma split_divider_length body :
  length (split DIVIDER_MARKER body) = S (occurrences DIVIDER_MARKER body).
Proof.
  change (split DIVIDER_MARKER body) with (split_from DIVIDER_MARKER 0 [] body).
  apply split_from_length; [exact DIVIDER_MARKER_unbordered|lia|reflexivity].
Qed.

Lemma startsWith_skipn : forall sep s,
  startsWith sep s = true -> s = sep ++ skipn (length sep) s.
Proof.
  induction sep as [|a sep IH]; intros s Hm; [reflexivity|].
  destruct s as [|c s]; [discriminate Hm|].
  apply startsWith_cons in Hm as [-> Hm].
  cbn [length skipn app]. f_equal. apply IH, Hm.
Qed.

Lemma split_from_cons sep s : forall n cur,
  exists first rest, split_from sep n cur s = first :: rest.
Proof.
  induction s as [|c s IH]; intros n cur; cbn [split_from]; [eauto|].
  destruct n as [|n]; [|apply IH].
  destruct (startsWith sep (c :: s)); [eauto|apply IH].
Qed.

(** Joining the segments with the separator gives the string back: the
    scan loses nothing and invents nothing. *)
Lemma split_from_join sep :
  sep <> [] ->
  forall s n cur,
    n <= length sep - 1 ->
    startsWith (skipn (length sep - n) sep) s = true ->
    join sep (split_from sep n cur s) = rev cur ++ skipn n s.
Proof.
  intros Hsep. induction s as [|c s IH]; intros n cur Hn Hpend.
  - cbn [split_from join]. rewrite skipn_nil, app_nil_r. reflexivity.
  - destruct n as [|n]; cbn [split_from skipn].
    + destruct (startsWith sep (c :: s)) eqn:Hm.
      * destruct sep as [|a sep]; [contradiction|].
        assert (Htail : startsWith sep s = true)
          by (apply startsWith_cons in Hm as [_ Hm]; exact Hm).
        destruct (split_from_cons (a :: sep) s (length (a :: sep) - 1) [])
          as (first & rest & Hshape).
        cbn [join]. rewrite Hshape, <- Hshape.
        rewrite IH.
        -- cbn [rev app length].
           replace (S (length sep) - 1) with (length sep) by lia.
           apply startsWith_cons in Hm as [-> _].
           rewrite (startsWith_skipn sep s Htail) at 2.
           reflexivity.
        -- lia.
        -- cbn [length].
           replace (S (length sep) - (S (length sep) - 1)) with 1 by lia.
           exact Htail.
      * rewrite IH; [|lia|rewrite Nat.sub_0_r, skipn_all; reflexivity].
        cbn [rev skipn]. rewrite <- app_assoc. reflexivity.
    + destruct (lookup_lt_is_Some_2 sep (length sep - S n)) as [x Hx]; [lia|].
      rewrite (drop_S _ _ _ Hx) in Hpend.
      apply startsWith_cons in Hpend as [_ Hpend].
      replace (S (length sep - S n)) with (length sep - n) in Hpend by lia.
      apply IH; [lia|exact Hpend].
Qed.

Lemma split_divider_join body :
  join DIVIDER_MARKER (split DIVIDER_MARKER body) = body.
Proof.
  change (split DIVIDER_MARKER body) with (split_from DIVIDER_MARKER 0 [] body).
  rewrite split_from_join; [reflexivity|discriminate|lia|reflexivity].
Qed.

Lemma trimStart_head s c r : trimStart s = c :: r -> isWhiteSpace c = false.
Proof.
  induction s as [|x s IH]; [discriminate|].
  cbn [trimStart]. destruct (isWhiteSpace x) eqn:Hx; [exact IH|].
  intros [= <- _]. exact Hx.
Qed.

(** A trimmed string does not end in white space. *)
Lemma trim_last s r c : trim s = r ++ [c] -> isWhiteSpace c = false.
Proof.
  unfold trim, trimEnd. intros Ht.
  apply (f_equal (@rev N)) in Ht.
  rewrite rev_involutive, rev_unit in Ht.
  exact (trimStart_head _ _ _ Ht).
Qed.

Lemma trim_not_blank_feed s : trim s <> BLANK_FEED.
Proof.
  intros Ht. assert (Hw := trim_last s [10%N] 10%N Ht). discriminate Hw.
Qed.

Lemma truthy_and_trim s : truthy s && truthy (trim s) = truthy (trim s).
Proof. destruct s; reflexivity. Qed.

End JsFacts.

(** ** The open callback: what the [try] block writes *)

Section Composition.
Context `{Capabilities}.

Ltac unfold_printer :=
  unfold raw, text, align, style, raster, feed, cut in *.

(** The [forEach] loop seen from inside: the segments still to come are a
    suffix of [bodySegments], the index is the length of the prefix. *)
Lemma forEach_suffix job : forall rest done printer,
  bodySegments job = done ++ rest ->
  fold_left (fun acc x => (S (fst acc), print_segment job x (fst acc) (snd acc)))
            rest (length done, printer)
  = (length done + length rest,
     printer ++ between (divider_group (dividerImage job))
                        (List.map segment_group rest)).
Proof.
  induction rest as [|segment rest IH]; intros done printer Hsplit.
  - simpl. rewrite Nat.add_0_r, app_nil_r. reflexivity.
  - cbn [fold_left fst snd].
    assert (Hnext : bodySegments job = (done ++ [segment]) ++ rest)
      by (rewrite <- app_assoc; exact Hsplit).
    specialize (IH (done ++ [segment])).
    rewrite length_app in IH. cbn [length] in IH.
    replace (length done + 1) with (S (length done)) in IH by lia.
    rewrite (IH _ Hnext). f_equal; [cbn [length]; lia|].
    unfold print_segment, segment_group, divider_group. unfold_printer.
    rewrite Hsplit, length_app. cbn [length List.map between].
    destruct rest as [|next rest].
    + cbn [length List.map between].
      replace (Z.of_nat (length done) <? Z.of_nat (length done + 1) - 1)%Z
        with false by (symmetry; apply Z.ltb_ge; lia).
      destruct (dividerImage job), (truthy (trim segment));
        cbn [between List.map]; rewrite ?app_nil_r, <- ?app_assoc; reflexivity.
    + cbn [length List.map].
      replace (Z.of_nat (length done)
               <? Z.of_nat (length done + S (S (length rest))) - 1)%Z
        with true by (symmetry; apply Z.ltb_lt; lia).
      destruct (dividerImage job), (truthy (trim segment));
        rewrite <- ?app_assoc; reflexivity.
Qed.

(** The loop writes the segments' groups with the divider group between
    consecutive ones. *)
Lemma forEach_print_segment job printer :
  forEach (print_segment job) (bodySegments job) printer
  = printer ++ between (divider_group (dividerImage job))
                       (List.map segment_group (bodySegments job)).
Proof.
  unfold forEach.
  pose proof (forEach_suffix job (bodySegments job) [] printer eq_refl) as Hloop.
  cbn [length] in Hloop. rewrite Hloop. reflexivity.
Qed.

Lemma print_upto_footer_eq job printer :
  print_upto_footer job printer
  = printer ++ header_part job ++ body_part job ++ [Text BLANK_FEED]
      ++ body_image_part job ++ branded_part.
Proof.
  unfold print_upto_footer, header_part, body_part, body_image_part, branded_part.
  rewrite forEach_print_segment. unfold_printer.
  destruct (bodyImage job); rewrite <- ?app_assoc; reflexivity.
Qed.

Lemma print_footer_and_cut_eq job printer :
  print_footer_and_cut job printer = printer ++ footer_part job ++ [Feed 3; Cut].
Proof.
  unfold print_footer_and_cut, footer_part. unfold_printer.
  destruct (footerImage job); rewrite <- ?app_assoc; reflexivity.
Qed.

(** The sequence built for a job whose order details are a string or
    absent, part by part. *)
Lemma compose_receipt_parts job details :
  orderDetails job = order_of details ->
  compose_receipt job
  = header_part job ++ body_part job ++ [Text BLANK_FEED]
      ++ body_image_part job ++ branded_part ++ order_directives details
      ++ footer_part job ++ [Feed 3; Cut].
Proof.
  intros Hod. unfold compose_receipt, print_job. rewrite Hod.
  destruct details as [s|]; cbn [order_of order_directives fst].
  - rewrite truthy_and_trim.
    destruct (truthy (trim s)); unfold_printer;
      rewrite print_footer_and_cut_eq, print_upto_footer_eq;
      rewrite <- ?app_assoc; reflexivity.
  - rewrite print_footer_and_cut_eq, print_upto_footer_eq.
    rewrite <- ?app_assoc. reflexivity.
Qed.

(** When [orderDetails.trim] throws, the buffer holds the receipt up to
    the branded footer. *)
Lemma compose_receipt_thrown job :
  orderDetails job = OrderOther ->
  compose_receipt job
  = header_part job ++ body_part job ++ [Text BLANK_FEED]
      ++ body_image_part job ++ branded_part.
Proof.
  intros Hod. unfold compose_receipt, print_job. rewrite Hod.
  cbn [fst]. apply print_upto_footer_eq.
Qed.

End Composition.

(** ** The loading phase *)

Section Loading.
Context `{Capabilities}.

Ltac split3 := split; [|split].

Lemma keeps_ret {A} (I : Frame -> Prop) (a : A) (Q : A -> Prop) :
  Q a -> keeps I (ret a) Q.
Proof.
  intros Ha f Hf. cbn. split3; [exact Hf|discriminate|].
  intros a' [= <-]. exact Ha.
Qed.

Lemma keeps_throw {A} (I : Frame -> Prop) message (Q : A -> Prop) :
  keeps I (throw message) Q.
Proof. intros f Hf. cbn. split3; [exact Hf|discriminate|discriminate]. Qed.

Lemma keeps_bind {A B} (I : Frame -> Prop) (m : M A) (k : A -> M B)
    (Q : A -> Prop) (R : B -> Prop) :
  keeps I m Q -> (forall a, Q a -> keeps I (k a) R) -> keeps I (bind m k) R.
Proof.
  intros Hm Hk f Hf. destruct (Hm f Hf) as (Hf' & Hhang & HQ).
  unfold bind. destruct (m f) as [[a| |] f']; cbn in *.
  - exact (Hk a (HQ a eq_refl) f' Hf').
  - split3; [exact Hf'|discriminate|discriminate].
  - contradiction.
Qed.

Lemma keeps_weaken {A} (I : Frame -> Prop) (m : M A) (Q Q' : A -> Prop) :
  keeps I m Q -> (forall a, Q a -> Q' a) -> keeps I m Q'.
Proof.
  intros Hm HQ f Hf. destruct (Hm f Hf) as (Hf' & Hhang & Ha).
  split3; auto.
Qed.

Lemma keeps_existsSync w0 path :
  keeps (sound w0) (existsSync path)
        (fun present => present = bool_decide (is_Some (assets w0 !! path))).
Proof.
  intros f Hf. cbn. split3; [exact Hf|discriminate|].
  intros present [= <-]. rewrite (sound_assets w0 f Hf). reflexivity.
Qed.

Lemma keeps_readFileSync w0 path :
  keeps (sound w0) (readFileSync path)
        (fun buffer => assets w0 !! path = Some buffer).
Proof.
  intros f Hf. unfold readFileSync. rewrite (sound_assets w0 f Hf).
  destruct (assets w0 !! path) as [data|]; cbn;
    (split3; [exact Hf|discriminate|]).
  - intros buffer [= <-]. reflexivity.
  - discriminate.
Qed.

(** The five statements of an image: the temp file is written and
    remembered in one go, and the image loaded is the converted one. *)
Lemma keeps_load_temp_image w0 role prefix buffer width :
  width = role_width role ->
  keeps (sound w0) (load_temp_image role prefix buffer width)
        (fun image => converted_image buffer width = Some image).
Proof.
  intros Hwidth f [Ha Hs Hc Hw Ht Hfr Hpr Hun Hq].
  unfold load_temp_image, bind, processImage, Date_now, writeFileSync,
    tempFiles_push, loadEscposImage, converted_image.
  assert (Hw' : Forall (fun e => snd e = role_width (fst e))
                  (converted f ++ [(role, width)])).
  { apply Forall_app. split; [exact Hw|]. repeat constructor. exact Hwidth. }
  destruct (sharp buffer width) as [message|data]; cbn.
  - split3; [split; cbn; auto|discriminate|discriminate].
  - rewrite lookup_insert_eq.
    assert (Hsound : forall r : Completion Image,
      sound w0
        {| world := with_tmpdir
             (<[(prefix, clock (world f) (ticks (world f))):=data]>
                (tmpdir (with_ticks (S (ticks (world f))) (world f))))
             (with_ticks (S (ticks (world f))) (world f));
           tempFiles := tempFiles f ++ [(prefix, clock (world f) (ticks (world f)))];
           conn := conn f;
           converted := converted f ++ [(role, width)];
           written := written f ++ [(prefix, clock (world f) (ticks (world f)))];
           warnings := warnings f |}).
    { intros _. split; cbn; auto.
      - rewrite Ht. reflexivity.
      - intros p Hp. rewrite elem_of_app, list_elem_of_singleton in Hp.
        rewrite lookup_insert_ne by (intros Heq; apply Hp; right; symmetry; exact Heq).
        apply Hfr. intros Hin. apply Hp. left. exact Hin.
      - intros p Hp. rewrite elem_of_app, list_elem_of_singleton in Hp.
        destruct (decide ((prefix, clock (world f) (ticks (world f))) = p))
          as [<-|Hne].
        + rewrite lookup_insert_eq. eauto.
        + rewrite lookup_insert_ne by exact Hne.
          destruct Hp as [Hp|Hp]; [apply Hpr, Hp|congruence]. }
    destruct (Image_load data) as [message| |image]; cbn;
      (split3; [apply Hsound; exact Hang|discriminate|]).
    + discriminate.
    + discriminate.
    + intros a [= <-]. reflexivity.
Qed.

Lemma keeps_load_optional w0 role path prefix width :
  width = role_width role ->
  keeps (sound w0) (load_optional role path prefix width)
        (fun image => optional_image (assets w0 !! path) width = Some image).
Proof.
  intros Hwidth. unfold load_optional.
  eapply keeps_bind; [apply keeps_existsSync|].
  intros present ->. cbv beta.
  destruct (assets w0 !! path) as [data|] eqn:Hfile.
  - rewrite bool_decide_eq_true_2 by eauto.
    eapply keeps_bind; [apply keeps_readFileSync|].
    intros buffer Hbuf. rewrite Hfile in Hbuf. injection Hbuf as <-.
    eapply keeps_bind; [apply keeps_load_temp_image; exact Hwidth|].
    intros image Himage. apply keeps_ret. unfold optional_image. rewrite Himage. reflexivity.
  - rewrite bool_decide_eq_false_2 by (intros [? ?]; discriminate).
    apply keeps_ret. reflexivity.
Qed.

(** The loading phase computes the job that the asset files and the
    request determine. *)
Lemma keeps_load_images w0 req :
  keeps (sound w0) (load_images req)
        (fun job => resolve_job (assets w0) req = Some job).
Proof.
  unfold load_images, resolve_job.
  eapply keeps_bind; [apply keeps_existsSync|].
  intros present ->. cbv beta.
  destruct (assets w0 !! HEADER_LOGO_PATH) as [headerBuffer|] eqn:Hheader.
  2:{ rewrite bool_decide_eq_false_2 by (intros [? ?]; discriminate).
      apply keeps_throw. }
  rewrite bool_decide_eq_true_2 by eauto. cbn [negb].
  eapply keeps_bind; [apply keeps_readFileSync|].
  intros buffer Hbuf. rewrite Hheader in Hbuf. injection Hbuf as <-.
  eapply keeps_bind; [apply keeps_load_temp_image; reflexivity|].
  intros header ->.
  eapply keeps_bind; [apply keeps_load_optional; reflexivity|].
  intros divider ->.
  eapply keeps_bind; [apply keeps_load_optional; reflexivity|].
  intros footer ->.
  eapply (keeps_bind _ _ _
            (fun image => optional_image (bodyImageBuffer req)
                            FOOTER_IMAGE_WIDTH_PX = Some image)).
  - destruct (bodyImageBuffer req) as [buffer|].
    + eapply keeps_bind; [apply keeps_load_temp_image; reflexivity|].
      intros image Himage. apply keeps_ret. unfold optional_image. rewrite Himage. reflexivity.
    + apply keeps_ret. reflexivity.
  - intros image ->. apply keeps_ret. reflexivity.
Qed.

Lemma sound_start w : sound w (start w).
Proof.
  split; cbn; auto.
  intros p Hp. apply elem_of_nil in Hp. contradiction.
Qed.

End Loading.

(** ** The network phase and the clean-up *)

Section Network.
Context `{Capabilities}.

Lemma fire_armed e c : armed c -> armed (fire e c).
Proof.
  unfold armed. destruct c as [p t d o cl pr].
  destruct e as [|[message|]|]; cbn.
  - destruct t; cbn; [|auto]. destruct p; cbn; auto; discriminate.
  - destruct o; cbn; [|auto]. destruct p; cbn; auto; discriminate.
  - destruct o as [job|]; cbn; [|auto].
    destruct (print_job job) as [buffer [[]|message|]]; cbn; auto.
    destruct p; cbn; auto; discriminate.
  - destruct cl; cbn; [|auto]. destruct p; cbn; auto; discriminate.
Qed.

Lemma fire_built job e c : built job c -> built job (fire e c).
Proof.
  unfold built. destruct c as [p t d o cl pr]. cbn.
  intros Hc. destruct e as [|[message|]|]; cbn.
  - destruct t; cbn; [|exact Hc]. destruct p; exact Hc.
  - destruct Hc as [[-> ->]|[-> Hpr]]; cbn.
    + destruct p; cbn; auto.
    + auto.
  - destruct Hc as [[-> ->]|[-> Hpr]]; cbn; [|auto].
    unfold compose_receipt.
    destruct (print_job job) as [buffer [[]|message|]]; cbn; auto.
    destruct p; cbn; auto.
  - destruct cl; cbn; [|exact Hc]. destruct p; exact Hc.
Qed.

(** The awaited promise is settled when the [await] is over. *)
Lemma await_loop_settles : forall evs c,
  armed c -> promise (fst (await_loop evs c)) <> Pending.
Proof.
  induction evs as [|e evs IH]; intros c Hc; cbn [await_loop].
  - destruct (promise c) eqn:Hp; cbn [fst]; try (rewrite Hp; discriminate).
    unfold fire. rewrite (Hc Hp). destruct c as [p t d o cl pr].
    cbn in Hp. subst p. cbn. discriminate.
  - destruct (promise c) eqn:Hp; cbn [fst]; try (rewrite Hp; discriminate).
    apply IH, fire_armed, Hc.
Qed.

Lemma await_loop_built job : forall evs c,
  built job c -> built job (fst (await_loop evs c)).
Proof.
  induction evs as [|e evs IH]; intros c Hc; cbn [await_loop].
  - destruct (promise c); cbn [fst]; auto. apply fire_built, Hc.
  - destruct (promise c); cbn [fst]; auto. apply IH, fire_built, Hc.
Qed.

Lemma fold_fire_built job : forall evs c,
  built job c -> built job (fold_left (fun c e => fire e c) evs c).
Proof.
  induction evs as [|e evs IH]; intros c Hc; cbn [fold_left]; auto.
  apply IH, fire_built, Hc.
Qed.

Lemma built_opened job : built job (opened job).
Proof. left. split; reflexivity. Qed.

Lemma armed_opened job : armed (opened job).
Proof. intros _. reflexivity. Qed.

(** One turn of the clean-up loop, case by case: a file that is not
    there is passed over; a file that cannot be deleted stays and the
    error is logged; any other file is removed. *)
Lemma unlink_if_exists_eq f tempPath :
  unlink_if_exists tempPath f
  = match tmpdir (world f) !! tempPath with
    | None => (Normal tt, f)
    | Some _ =>
        match unlink_error (world f) tempPath with
        | Some message => console_warn message f
        | None =>
            (Normal tt,
             with_world (with_tmpdir (delete tempPath (tmpdir (world f)))
                                     (world f)) f)
        end
    end.
Proof.
  unfold unlink_if_exists, bind, temp_existsSync, try_catch, unlinkSync.
  destruct (tmpdir (world f) !! tempPath) as [data|] eqn:Hfile.
  - rewrite bool_decide_eq_true_2 by eauto.
    destruct (unlink_error (world f) tempPath); [reflexivity|].
    rewrite Hfile. reflexivity.
  - rewrite bool_decide_eq_false_2 by (intros [? ?]; discriminate).
    reflexivity.
Qed.

Lemma omap_pointwise {A B} (g h : A -> option B) (l : list A) :
  (forall a, a ∈ l -> g a = h a) -> omap g l = omap h l.
Proof.
  induction l as [|a l IH]; intros Hgh; [reflexivity|].
  cbn. rewrite (Hgh a) by (apply elem_of_cons; auto).
  rewrite IH; [reflexivity|].
  intros a' Ha'. apply Hgh. apply elem_of_cons; auto.
Qed.

(** The clean-up loop completes; it removes the listed files that can be
    deleted, logs the error of each listed file that is there and cannot,
    and touches nothing else. *)
Lemma unlink_all : forall l f,
  let f' := snd (for_of l unlink_if_exists f) in
  (conn f' = conn f /\ written f' = written f /\ converted f' = converted f
   /\ assets (world f') = assets (world f)
   /\ schedule (world f') = schedule (world f)
   /\ forall p, tmpdir (world f') !! p
                = if decide (p ∈ l)
                  then match unlink_error (world f) p with
                       | Some _ => tmpdir (world f) !! p
                       | None => None
                       end
                  else tmpdir (world f) !! p)
  /\ fst (for_of l unlink_if_exists f) = Normal tt
  /\ clock (world f') = clock (world f)
  /\ ticks (world f') = ticks (world f)
  /\ unlink_error (world f') = unlink_error (world f)
  /\ warnings f'
     = warnings f ++ omap (logged (world f) (tmpdir (world f))) l.
Proof.
  induction l as [|tempPath l IH]; intros f; cbn [for_of].
  - cbn. rewrite app_nil_r. repeat split.
  - unfold bind. rewrite unlink_if_exists_eq.
    destruct (tmpdir (world f) !! tempPath) as [data|] eqn:Hfile;
      [destruct (unlink_error (world f) tempPath) as [message|] eqn:Herr|].
    + (* the file cannot be deleted *)
      unfold console_warn.
      match goal with
      | |- context [for_of l unlink_if_exists ?g] =>
          destruct (IH g) as ((Hc & Hw & Hv & Ha & Hs & Hd) & Hr & Hk & Ht & Hu & Hl)
      end.
      cbv zeta in *. cbn [world warnings conn written converted] in *.
      rewrite Hc, Hw, Hv, Ha, Hs, Hr, Hk, Ht, Hu, Hl.
      repeat split.
      * intros p. rewrite Hd.
        destruct (decide (p ∈ l)) as [Hin|Hnin].
        -- rewrite decide_True by (apply elem_of_cons; auto). reflexivity.
        -- destruct (decide (p = tempPath)) as [->|Hne].
           ++ rewrite decide_True by (apply elem_of_cons; auto).
              rewrite Herr. reflexivity.
           ++ rewrite decide_False; [reflexivity|].
              rewrite elem_of_cons. intros [?|?]; contradiction.
      * cbn [omap list_omap]. unfold logged at 2. rewrite Hfile, Herr.
        rewrite <- app_assoc. reflexivity.
    + (* the file is removed *)
      match goal with
      | |- context [for_of l unlink_if_exists ?g] =>
          destruct (IH g) as ((Hc & Hw & Hv & Ha & Hs & Hd) & Hr & Hk & Ht & Hu & Hl)
      end.
      cbv zeta in *.
      cbn [world warnings conn written converted with_world with_tmpdir
           assets schedule clock ticks unlink_error tmpdir] in *.
      rewrite Hc, Hw, Hv, Ha, Hs, Hr, Hk, Ht, Hu, Hl.
      repeat split.
      * intros p. rewrite Hd.
        destruct (decide (p = tempPath)) as [->|Hne].
        -- rewrite Herr, lookup_delete_eq.
           rewrite (decide_True (P := tempPath ∈ tempPath :: l))
             by (apply elem_of_cons; auto).
           destruct (decide (tempPath ∈ l)); reflexivity.
        -- rewrite lookup_delete_ne by congruence.
           destruct (decide (p ∈ l)) as [Hin|Hnin].
           ++ rewrite decide_True by (apply elem_of_cons; auto). reflexivity.
           ++ rewrite decide_False; [reflexivity|].
              rewrite elem_of_cons. intros [?|?]; contradiction.
      * cbn [omap list_omap]. unfold logged at 2. rewrite Hfile, Herr.
        f_equal. apply omap_pointwise. intros p _. unfold logged.
        cbn [unlink_error with_tmpdir].
        destruct (decide (p = tempPath)) as [->|Hne].
        -- rewrite Herr, lookup_delete_eq.
           destruct (tmpdir (world f) !! tempPath); reflexivity.
        -- rewrite lookup_delete_ne by congruence. reflexivity.
    + (* the file is not there *)
      destruct (IH f) as ((Hc & Hw & Hv & Ha & Hs & Hd) & Hr & Hk & Ht & Hu & Hl).
      cbv zeta in *.
      rewrite Hc, Hw, Hv, Ha, Hs, Hr, Hk, Ht, Hu, Hl.
      repeat split.
      * intros p. rewrite Hd.
        destruct (decide (p ∈ l)) as [Hin|Hnin].
        -- rewrite decide_True by (apply elem_of_cons; auto). reflexivity.
        -- destruct (decide (p = tempPath)) as [->|Hne].
           ++ rewrite decide_True by (apply elem_of_cons; auto).
              rewrite Hfile. destruct (unlink_error (world f) tempPath); reflexivity.
           ++ rewrite decide_False; [reflexivity|].
              rewrite elem_of_cons. intros [?|?]; contradiction.
      * cbn [omap list_omap]. unfold logged at 2. rewrite Hfile. reflexivity.
Qed.

(** The [finally] block never throws. *)
Lemma cleanup_returns f : cleanup f = (Normal tt, cleaned f).
Proof.
  unfold cleaned. rewrite (surjective_pairing (cleanup f)) at 1.
  f_equal. unfold cleanup.
  destruct (unlink_all (tempFiles f) f) as (_ & Hr & _). exact Hr.
Qed.


(** A run of [printReceipt], laid out: either the loading phase throws and
    only the clean-up follows, or it yields the job that the files and the
    request determine, the promise is awaited and settles, and the
    clean-up follows. *)
Lemma printReceipt_run req w :
  exists f1, sound w f1 /\
    ((exists message,
        load_images req (start w) = (Throw message, f1) /\
        printReceipt req w = (Throw message, cleaned f1))
     \/
     (exists job,
        load_images req (start w) = (Normal job, f1) /\
        resolve_job (assets w) req = Some job /\
        let run := await_loop (schedule w) (opened job) in
        promise (fst run) <> Pending /\
        printReceipt req w
        = (outcome (promise (fst run)),
           cleaned (with_conn (fst run)
                      (with_world (with_schedule (snd run) (world f1)) f1))))).
Proof.
  destruct (keeps_load_images w req (start w) (sound_start w))
    as (Hsound & Hhang & Hjob).
  unfold printReceipt, try_finally, printReceipt_try, bind.
  destruct (load_images req (start w)) as [[job|message|] f1];
    cbn [fst snd] in *.
  - exists f1. split; [exact Hsound|]. right. exists job.
    split; [reflexivity|]. split; [exact (Hjob job eq_refl)|].
    pose proof (await_loop_settles (schedule w) (opened job) (armed_opened job))
      as Hsettled.
    split; [exact Hsettled|].
    unfold device_open, await_promise.
    cbn [world conn with_conn with_world schedule].
    rewrite (sound_schedule w f1 Hsound).
    fold (opened job).
    destruct (await_loop (schedule w) (opened job)) as [c evs].
    cbn [fst snd] in *.
    destruct (promise c); [contradiction| |];
      rewrite cleanup_returns; reflexivity.
  - exists f1. split; [exact Hsound|]. left. exists message.
    split; [reflexivity|]. rewrite cleanup_returns. reflexivity.
  - contradiction.
Qed.

End Network.

(** ** What a run emits *)

Section Emitted.
Context `{Capabilities}.

Lemma cleaned_fields f :
  conn (cleaned f) = conn f /\ written (cleaned f) = written f
  /\ converted (cleaned f) = converted f
  /\ assets (world (cleaned f)) = assets (world f)
  /\ schedule (world (cleaned f)) = schedule (world f)
  /\ forall p, tmpdir (world (cleaned f)) !! p
               = if decide (p ∈ tempFiles f)
                 then match unlink_error (world f) p with
                      | Some _ => tmpdir (world f) !! p
                      | None => None
                      end
                 else tmpdir (world f) !! p.
Proof. exact (proj1 (unlink_all (tempFiles f) f)). Qed.

Lemma cleaned_log f :
  clock (world (cleaned f)) = clock (world f)
  /\ ticks (world (cleaned f)) = ticks (world f)
  /\ unlink_error (world (cleaned f)) = unlink_error (world f)
  /\ warnings (cleaned f)
     = warnings f ++ omap (logged (world f) (tmpdir (world f))) (tempFiles f).
Proof. exact (proj2 (proj2 (unlink_all (tempFiles f) f))). Qed.

(** Without an open callback nothing is ever printed. *)
Lemma fold_fire_quiet : forall evs c,
  open_cb c = None -> printer c = None ->
  printer (fold_left (fun c e => fire e c) evs c) = None.
Proof.
  induction evs as [|e evs IH]; intros c Ho Hp; cbn [fold_left]; [exact Hp|].
  destruct c as [p t d o cl pr]. cbn in Ho, Hp. subst o pr.
  destruct e as [|err|]; cbn.
  - destruct t; cbn; [destruct p|]; apply IH; reflexivity.
  - apply IH; reflexivity.
  - destruct cl; cbn; [destruct p|]; apply IH; reflexivity.
Qed.

(** The sequence a run emits is the one the callback builds for the job
    that the asset files and the request determine. *)
Lemma emitted_resolved req w l :
  emitted req w = Some l ->
  exists job, resolve_job (assets w) req = Some job /\ l = compose_receipt job.
Proof.
  unfold emitted, settle.
  destruct (printReceipt_run req w)
    as (f1 & Hsound & [(message & _ & ->)|(job & _ & Hjob & _ & ->)]);
    cbn [snd conn with_conn].
  - destruct (cleaned_fields f1) as (-> & _).
    rewrite (sound_conn w f1 Hsound).
    rewrite fold_fire_quiet by reflexivity. discriminate.
  - match goal with
    | |- context [cleaned ?g] => destruct (cleaned_fields g) as (-> & _)
    end.
    cbn [conn with_conn]. intros Hl. exists job. split; [exact Hjob|].
    match type of Hl with
    | printer (fold_left _ ?evs ?c) = _ =>
        destruct (fold_fire_built job evs c) as [[_ Hp]|[_ [Hp|Hp]]]
    end.
    + apply await_loop_built, built_opened.
    + rewrite Hp in Hl. discriminate.
    + rewrite Hp in Hl. discriminate.
    + rewrite Hp in Hl. injection Hl as <-. reflexivity.
Qed.

Lemma resolve_job_fields files req job :
  resolve_job files req = Some job ->
  bodySegments job = split DIVIDER_MARKER (body req)
  /\ orderDetails job = req_orderDetails req
  /\ (is_Some (files !! DIVIDER_IMAGE_PATH) -> is_Some (dividerImage job)).
Proof.
  unfold resolve_job.
  destruct (files !! HEADER_LOGO_PATH); [|discriminate].
  destruct (converted_image _ _); [|discriminate].
  destruct (optional_image (files !! DIVIDER_IMAGE_PATH) _) as [divider|] eqn:Hd;
    [|discriminate].
  destruct (optional_image (files !! FOOTER_IMAGE_PATH) _); [|discriminate].
  destruct (optional_image (bodyImageBuffer req) _); [|discriminate].
  intros [= <-]. cbn. repeat split.
  intros [data Hdata]. rewrite Hdata in Hd. unfold optional_image in Hd.
  destruct (converted_image data PRINTER_WIDTH_PX); [|discriminate].
  injection Hd as <-. eauto.
Qed.

Lemma count_dividers_app l1 l2 :
  count_dividers (l1 ++ l2) = count_dividers l1 + count_dividers l2.
Proof. unfold count_dividers. rewrite List.filter_app, length_app. reflexivity. Qed.

Lemma count_dividers_segment segment : count_dividers (segment_group segment) = 0.
Proof. unfold segment_group. destruct (truthy (trim segment)); reflexivity. Qed.

(** One divider per gap between segments. *)
Lemma count_dividers_body divider segments :
  count_dividers (between [Align Align_ct; Raster Divider divider]
                          (List.map segment_group segments))
  = length segments - 1.
Proof.
  induction segments as [|s segments IH]; [reflexivity|].
  cbn [List.map between]. destruct segments as [|s' segments].
  - cbn [List.map]. apply count_dividers_segment.
  - change (List.map segment_group (s' :: segments))
      with (segment_group s' :: List.map segment_group segments) in *.
    cbv iota. rewrite !count_dividers_app, count_dividers_segment, IH.
    cbn [length]. change (count_dividers [Align Align_ct; Raster Divider divider]) with 1.
    lia.
Qed.

(** The tail of the sequence, behind the body: no divider in it. *)
Lemma compose_receipt_body job :
  exists after,
    compose_receipt job = header_part job ++ body_part job ++ after
    /\ count_dividers after = 0.
Proof.
  destruct (orderDetails job) as [|s|] eqn:Hod.
  - rewrite (compose_receipt_parts job None Hod). eexists. split; [reflexivity|].
    unfold body_image_part, footer_part.
    destruct (bodyImage job), (footerImage job); reflexivity.
  - rewrite (compose_receipt_parts job (Some s) Hod). eexists. split; [reflexivity|].
    unfold body_image_part, footer_part, order_directives.
    destruct (bodyImage job), (footerImage job), (truthy (trim s)); reflexivity.
  - rewrite (compose_receipt_thrown job Hod). eexists. split; [reflexivity|].
    unfold body_image_part. destruct (bodyImage job); reflexivity.
Qed.

End Emitted.

(** ** The properties of the specification *)

Section Specification.
Context `{Capabilities}.

(** C1.  A body with [k] occurrences of the divider marker is split into
    [k + 1] segments; when the divider image file exists, the sequence a
    run emits holds exactly [k] divider rasters, and they stand between
    the groups of consecutive segments: none before the first group, none
    after the last. *)
Theorem dividers_between_segments req :
  let k := occurrences DIVIDER_MARKER (body req) in
  let segments := split DIVIDER_MARKER (body req) in
  length segments = S k
  /\ forall w l,
       emitted req w = Some l ->
       is_Some (assets w !! DIVIDER_IMAGE_PATH) ->
       count_dividers l = k
       /\ exists before divider after,
            l = before
                ++ between [Align Align_ct; Raster Divider divider]
                           (List.map segment_group segments)
                ++ after
            /\ count_dividers before = 0
            /\ Forall (fun group => count_dividers group = 0)
                      (List.map segment_group segments)
            /\ count_dividers after = 0.
Proof.
  intros k segments.
  assert (Hlen : length segments = S k) by apply split_divider_length.
  split; [exact Hlen|]. intros w l Hl Hfile.
  destruct (emitted_resolved req w l Hl) as (job & Hjob & ->).
  destruct (resolve_job_fields _ _ _ Hjob) as (Hsegs & _ & Hdiv).
  destruct (Hdiv Hfile) as [divider Hdivider].
  destruct (compose_receipt_body job) as (after & -> & Hafter).
  unfold body_part. rewrite Hsegs, Hdivider. cbn [divider_group].
  fold segments. split.
  - rewrite !count_dividers_app, count_dividers_body, Hafter, Hlen.
    change (count_dividers (header_part job)) with 0. lia.
  - exists (header_part job), divider, after.
    split; [reflexivity|]. split; [reflexivity|]. split; [|exact Hafter].
    apply List.Forall_forall. intros group Hin.
    apply in_map_iff in Hin as (s & <- & _). apply count_dividers_segment.
Qed.

Lemma without_blank_feeds_app l1 l2 :
  without_blank_feeds (l1 ++ l2)
  = without_blank_feeds l1 ++ without_blank_feeds l2.
Proof.
  induction l1 as [|d l1 IH]; [reflexivity|].
  cbn [app without_blank_feeds]. rewrite IH.
  destruct (is_blank_feed d); reflexivity.
Qed.

Lemma is_blank_feed_text content :
  content <> BLANK_FEED -> is_blank_feed (Text content) = false.
Proof.
  intros Hne. unfold is_blank_feed.
  repeat match goal with
         | |- context [match ?x with _ => _ end] =>
             is_var x; destruct x; try reflexivity
         end.
  contradiction.
Qed.

(** The steps of the fixed order all occur in the sequence built by the
    callback, in their order. *)
Lemma fixed_order_sublist job details :
  orderDetails job = order_of details ->
  fixed_order job `sublist_of` compose_receipt job.
Proof.
  intros Hod. rewrite (compose_receipt_parts job details Hod).
  unfold fixed_order. rewrite Hod.
  fold (header_part job) (body_part job) (body_image_part job) (footer_part job).
  repeat (apply sublist_app; [reflexivity|]).
  change branded_part
    with ([Align Align_ct; Raw [0x1d; 0x28; 0x45; 0x02; 0x00; 0x31; 0x0f]%N;
           Style Style_b; Text BRANDED_FOOTER; Style Style_NORMAL;
           Raw [0x1d; 0x28; 0x45; 0x02; 0x00; 0x31; 0x08]%N]
          ++ [Text BLANK_FEED]).
  rewrite <- app_assoc.
  apply sublist_app; [reflexivity|].
  cbn [app]. apply sublist_cons.
  apply sublist_app; [|reflexivity].
  destruct details as [s|]; cbn [order_of order_directives]; [|reflexivity].
  destruct (truthy (trim s)); [|reflexivity].
  apply sublist_cons. reflexivity.
Qed.

Lemma order_feeds_before s :
  without_blank_feeds
    [Text BLANK_FEED; Align Align_lt; Text (trim s); Text BLANK_FEED]
  = [Align Align_lt; Text (trim s)].
Proof.
  pose proof (is_blank_feed_text (trim s) (trim_not_blank_feed s)) as Htrim.
  cbn [without_blank_feeds]. rewrite Htrim. reflexivity.
Qed.

Lemma order_feeds_after s :
  without_blank_feeds [Align Align_lt; Text (trim s); Text BLANK_FEED]
  = [Align Align_lt; Text (trim s)].
Proof.
  pose proof (is_blank_feed_text (trim s) (trim_not_blank_feed s)) as Htrim.
  cbn [without_blank_feeds]. rewrite Htrim. reflexivity.
Qed.

(** The sequence built by the callback holds nothing more than the fixed
    order, blank feeds apart. *)
Lemma fixed_order_complete job details :
  orderDetails job = order_of details ->
  without_blank_feeds (compose_receipt job) = without_blank_feeds (fixed_order job).
Proof.
  intros Hod. rewrite (compose_receipt_parts job details Hod).
  unfold fixed_order. rewrite Hod.
  fold (header_part job) (body_part job) (body_image_part job) (footer_part job).
  rewrite !without_blank_feeds_app. do 4 f_equal.
  change (without_blank_feeds branded_part)
    with [Align Align_ct; Raw [0x1d; 0x28; 0x45; 0x02; 0x00; 0x31; 0x0f]%N;
          Style Style_b; Text BRANDED_FOOTER; Style Style_NORMAL;
          Raw [0x1d; 0x28; 0x45; 0x02; 0x00; 0x31; 0x08]%N].
  f_equal.
  destruct details as [s|]; cbn [order_of order_directives]; [|reflexivity].
  destruct (truthy (trim s)); [|reflexivity].
  rewrite order_feeds_before, order_feeds_after. reflexivity.
Qed.

Ltac pick_in_order :=
  repeat first [apply sublist_nil_l | apply sublist_skip | apply sublist_cons].

(** C2.  The sequence a run emits for a request whose order details are a
    string or absent follows the fixed order of the specification: every
    step of it occurs, in that order, and the sequence holds nothing else
    but blank feeds.  For the body ["Hello{{divider}}World"] and a divider
    image, the header raster, [Text "Hello"], the divider raster,
    [Text "World"], the branded footer and the cut occur in this order. *)
Theorem emitted_in_fixed_order req w l :
  emitted req w = Some l ->
  req_orderDetails req <> OrderOther ->
  exists job,
    resolve_job (assets w) req = Some job
    /\ fixed_order job `sublist_of` l
    /\ without_blank_feeds l = without_blank_feeds (fixed_order job)
    /\ (body req = lit "Hello{{divider}}World" ->
        forall divider, dividerImage job = Some divider ->
        [Raster Header (headerImage job); Text (lit "Hello");
         Raster Divider divider; Text (lit "World"); Text BRANDED_FOOTER; Cut]
        `sublist_of` l).
Proof.
  intros Hl Hother.
  destruct (emitted_resolved req w l Hl) as (job & Hjob & ->).
  destruct (resolve_job_fields _ _ _ Hjob) as (Hsegs & Hod & _).
  assert (Hdetails : exists details, orderDetails job = order_of details).
  { rewrite Hod. destruct (req_orderDetails req) as [|s|].
    - exists None. reflexivity.
    - exists (Some s). reflexivity.
    - contradiction. }
  destruct Hdetails as [details Hdetails].
  exists job. split; [exact Hjob|].
  split; [exact (fixed_order_sublist job details Hdetails)|].
  split; [exact (fixed_order_complete job details Hdetails)|].
  intros Hbody divider Hdivider.
  rewrite (compose_receipt_parts job details Hdetails).
  unfold header_part, body_part, body_image_part, branded_part, footer_part.
  rewrite Hsegs, Hbody, Hdivider.
  change (split DIVIDER_MARKER (lit "Hello{{divider}}World"))
    with [lit "Hello"; lit "World"].
  change (List.map segment_group [lit "Hello"; lit "World"])
    with [[Align Align_lt; Text (lit "Hello")]; [Align Align_lt; Text (lit "World")]].
  cbn [divider_group between app].
  destruct (bodyImage job), (footerImage job), details as [s|];
    cbn [order_directives app];
    try destruct (truthy (trim s)); cbn [app]; pick_in_order.
Qed.

Lemma texts_app l1 l2 : texts (l1 ++ l2) = texts l1 ++ texts l2.
Proof.
  induction l1 as [|d l1 IH]; [reflexivity|].
  destruct d; cbn [app texts]; rewrite IH; reflexivity.
Qed.

Lemma rasters_app l1 l2 : rasters (l1 ++ l2) = rasters l1 ++ rasters l2.
Proof.
  induction l1 as [|d l1 IH]; [reflexivity|].
  destruct d; cbn [app rasters]; rewrite IH; reflexivity.
Qed.

Lemma texts_segment segment :
  texts (segment_group segment) = if truthy (trim segment) then [segment] else [].
Proof. unfold segment_group. destruct (truthy (trim segment)); reflexivity. Qed.

Lemma rasters_segment segment : rasters (segment_group segment) = [].
Proof. unfold segment_group. destruct (truthy (trim segment)); reflexivity. Qed.

Lemma texts_divider divider : texts (divider_group divider) = [].
Proof. destruct divider; reflexivity. Qed.

(** The texts of the body are its non-blank segments. *)
Lemma texts_body divider segments :
  texts (between (divider_group divider) (List.map segment_group segments))
  = List.filter (fun segment => truthy (trim segment)) segments.
Proof.
  induction segments as [|s segments IH]; [reflexivity|].
  cbn [List.map between List.filter]. destruct segments as [|s' segments].
  - cbn [List.map List.filter]. rewrite texts_segment.
    destruct (truthy (trim s)); reflexivity.
  - change (List.map segment_group (s' :: segments))
      with (segment_group s' :: List.map segment_group segments) in *.
    cbv iota. rewrite !texts_app, texts_segment, texts_divider, IH.
    destruct (truthy (trim s)); reflexivity.
Qed.

(** The rasters of the body: one divider for each segment but the last. *)
Lemma rasters_body divider segments :
  rasters (between (divider_group divider) (List.map segment_group segments))
  = match divider with
    | Some image => repeat (Divider, image) (length segments - 1)
    | None => []
    end.
Proof.
  induction segments as [|s segments IH]; [destruct divider; reflexivity|].
  cbn [List.map between]. destruct segments as [|s' segments].
  - cbn [List.map]. rewrite rasters_segment. destruct divider; reflexivity.
  - change (List.map segment_group (s' :: segments))
      with (segment_group s' :: List.map segment_group segments) in *.
    cbv iota. rewrite !rasters_app, rasters_segment, IH.
    destruct divider; [|reflexivity].
    cbn [length divider_group rasters app].
    replace (S (S (length segments)) - 1) with (S (length segments)) by lia.
    replace (S (length segments) - 1) with (length segments) by lia.
    reflexivity.
Qed.

(** C3.  What the loop over the segments writes: a blank segment gives no
    [Text] directive, the [Text] directives being exactly the non-blank
    segments; yet every segment, blank or not, keeps its place in the
    split, a divider following each of them but the last, so that the
    dividers written depend on the number of segments only. *)
Theorem blank_segments_keep_their_place job printer :
  let written_by_loop :=
    between (divider_group (dividerImage job))
            (List.map segment_group (bodySegments job)) in
  forEach (print_segment job) (bodySegments job) printer
  = printer ++ written_by_loop
  /\ texts written_by_loop
     = List.filter (fun segment => truthy (trim segment)) (bodySegments job)
  /\ rasters written_by_loop
     = match dividerImage job with
       | Some image => repeat (Divider, image) (length (bodySegments job) - 1)
       | None => []
       end.
Proof.
  cbv zeta. split; [apply forEach_print_segment|].
  split; [apply texts_body|apply rasters_body].
Qed.

(** C4.  Without the header logo [printReceipt] throws the asset-missing
    error at once, whatever the request: nothing is converted, no temp
    file is written, the world is as it was, no device is opened, and no
    directive is ever emitted. *)
Theorem missing_header_fails_first req w :
  assets w !! HEADER_LOGO_PATH = None ->
  printReceipt req w
  = (Throw "Header logo not found: logo.png must exist in project root", start w)
  /\ emitted req w = None.
Proof.
  intros Hmissing.
  assert (Hrun : printReceipt req w
    = (Throw "Header logo not found: logo.png must exist in project root",
       start w)).
  { unfold printReceipt, try_finally, printReceipt_try, load_images, bind,
      existsSync.
    cbn [world start]. rewrite Hmissing.
    rewrite bool_decide_eq_false_2 by (intros [? ?]; discriminate).
    reflexivity. }
  split; [exact Hrun|].
  unfold emitted, settle. rewrite Hrun. cbn [snd conn with_conn start].
  apply fold_fire_quiet; reflexivity.
Qed.

(** C5, as the code has it.  Every conversion a run makes is at the width
    of its role: the full printer width, 576, for the header and for the
    divider; the footer width, 461, for the footer and the body image. *)
Theorem conversion_widths req w :
  Forall (fun entry => snd entry = role_width (fst entry))
         (converted (snd (printReceipt req w)))
  /\ role_width Header = 576%Z /\ role_width Divider = 576%Z
  /\ role_width Footer = 461%Z /\ role_width BodyImage = 461%Z.
Proof.
  split; [|repeat split].
  destruct (printReceipt_run req w)
    as (f1 & Hsound & [(message & _ & ->)|(job & _ & _ & _ & ->)]);
    cbn [snd].
  - destruct (cleaned_fields f1) as (_ & _ & -> & _).
    exact (sound_widths w f1 Hsound).
  - match goal with
    | |- context [cleaned ?g] => destruct (cleaned_fields g) as (_ & _ & -> & _)
    end.
    exact (sound_widths w f1 Hsound).
Qed.



(** C8.  A request whose body text is 4001 code units long is answered
    with status 400, and the handler makes no call of [printReceipt]. *)
Theorem oversized_body_rejected req w s :
  field_body req = JsStr s ->
  length s = 4001 ->
  exists message,
    post_print req w
    = (Some {| status := 400; ok := false; error := Some message |}, None).
Proof.
  intros Hbody Hlen. unfold post_print. rewrite Hbody.
  destruct (negb (truthy s) || (length (trim s) =? 0)); [eauto|].
  rewrite Hlen. change (4000 <? Z.of_nat 4001)%Z with true. eauto.
Qed.

(** C9.  Order details that are a string with something other than white
    space in it are printed trimmed, left-aligned, between two blank
    feeds, after the branded footer; order details that are absent or
    blank add nothing to the sequence. *)
Theorem order_details_trimmed job details :
  compose_receipt (with_order (order_of details) job)
  = (header_part job ++ body_part job ++ [Text BLANK_FEED]
       ++ body_image_part job ++ branded_part)
    ++ match details with
       | Some s =>
           if truthy (trim s)
           then [Text BLANK_FEED; Align Align_lt; Text (trim s); Text BLANK_FEED]
           else []
       | None => []
       end
    ++ (footer_part job ++ [Feed 3; Cut]).
Proof.
  rewrite (compose_receipt_parts (with_order (order_of details) job) details)
    by reflexivity.
  rewrite <- !app_assoc. reflexivity.
Qed.

(** The job depends on the project root through three files only. *)
Lemma resolve_job_three_files files1 files2 req :
  files1 !! HEADER_LOGO_PATH = files2 !! HEADER_LOGO_PATH ->
  files1 !! DIVIDER_IMAGE_PATH = files2 !! DIVIDER_IMAGE_PATH ->
  files1 !! FOOTER_IMAGE_PATH = files2 !! FOOTER_IMAGE_PATH ->
  resolve_job files1 req = resolve_job files2 req.
Proof.
  intros Hheader Hdivider Hfooter. unfold resolve_job.
  rewrite Hheader, Hdivider, Hfooter. reflexivity.
Qed.

(** C10.  Two runs on the same request, in worlds where each of the
    header, divider and footer files is present in both with the same
    contents or absent from both, emit the same directive sequence,
    whatever else the project roots hold and whatever the clocks, the
    temp directories, the schedules and the deletion errors of the two
    worlds. *)
Theorem emitted_deterministic req w1 w2 l1 l2 :
  assets w1 !! HEADER_LOGO_PATH = assets w2 !! HEADER_LOGO_PATH ->
  assets w1 !! DIVIDER_IMAGE_PATH = assets w2 !! DIVIDER_IMAGE_PATH ->
  assets w1 !! FOOTER_IMAGE_PATH = assets w2 !! FOOTER_IMAGE_PATH ->
  emitted req w1 = Some l1 ->
  emitted req w2 = Some l2 ->
  l1 = l2.
Proof.
  intros Hheader Hdivider Hfooter H1 H2.
  destruct (emitted_resolved req w1 l1 H1) as (job1 & Hjob1 & ->).
  destruct (emitted_resolved req w2 l2 H2) as (job2 & Hjob2 & ->).
  rewrite (resolve_job_three_files _ _ req Hheader Hdivider Hfooter) in Hjob1.
  rewrite Hjob1 in Hjob2. injection Hjob2 as ->. reflexivity.
Qed.

End Specification.

(** ** The timer *)

Section Timer.
Context `{Capabilities}.

(** On a settled promise the [await] is over at once. *)
Lemma await_loop_settled evs c :
  promise c <> Pending -> await_loop evs c = (c, evs).
Proof.
  intros Hsettled.
  destruct evs; cbn [await_loop]; destruct (promise c); congruence.
Qed.

(** Whenever the network phase is reached and the timer is the first
    event, [printReceipt] throws the timeout error; at that moment the
    device is still connecting and the driver still holds the open
    callback: nothing has closed the one or withdrawn the other. *)
Lemma timer_first_reports_timeout req w evs job :
  schedule w = EvTimeout :: evs ->
  fst (load_images req (start w)) = Normal job ->
  fst (printReceipt req w) = Throw "Printer connection timeout"
  /\ device (conn (snd (printReceipt req w))) = Connecting
  /\ open_cb (conn (snd (printReceipt req w))) = Some job
  /\ schedule (world (snd (printReceipt req w))) = evs.
Proof.
  intros Hschedule Hloaded.
  destruct (printReceipt_run req w)
    as (f1 & Hsound & [(message & Hload & _)|(job' & Hload & _ & _ & ->)]).
  - rewrite Hload in Hloaded. discriminate Hloaded.
  - rewrite Hload in Hloaded. injection Hloaded as ->.
    rewrite Hschedule. cbn [await_loop opened promise fire timer fst snd].
    rewrite await_loop_settled by discriminate.
    match goal with
    | |- context [cleaned ?g] =>
        destruct (cleaned_fields g) as (-> & _ & _ & _ & -> & _)
    end.
    repeat split.
Qed.

(** The callback, called after that, prints the whole receipt. *)
Lemma late_open_still_prints job c :
  open_cb c = Some job ->
  orderDetails job <> OrderOther ->
  printer (fire (EvOpen None) c) = Some (compose_receipt job).
Proof.
  intros Hcb Hother. unfold fire. rewrite Hcb. unfold on_open, compose_receipt.
  unfold print_job.
  destruct (orderDetails job); [reflexivity|reflexivity|contradiction].
Qed.

End Timer.

(** ** The properties at work, in the concrete setting *)

Example success_path :
  fst (printReceipt hello_world sample_world) = Normal tt
  /\ tmpdir (world (snd (printReceipt hello_world sample_world))) = ∅.
Proof. split; vm_compute; reflexivity. Qed.

Example decode_failure_path :
  fst (printReceipt hello_world corrupt_world) = Throw "Input buffer is empty"
  /\ written (snd (printReceipt hello_world corrupt_world))
     = [("receipt-header-"%string, 1700000000000%Z)]
  /\ tmpdir (world (snd (printReceipt hello_world corrupt_world))) = ∅.
Proof. repeat split; vm_compute; reflexivity. Qed.

Example connection_failure_path :
  fst (printReceipt hello_world refused_world)
  = Throw "Failed to connect to printer: connect ECONNREFUSED"
  /\ tmpdir (world (snd (printReceipt hello_world refused_world))) = ∅.
Proof. split; vm_compute; reflexivity. Qed.

Example type_error_path :
  let req := {| body := lit "x"; bodyImageBuffer := None;
                req_orderDetails := OrderOther |} in
  fst (printReceipt req sample_world)
  = Throw "Print failed: orderDetails.trim is not a function"
  /\ device (conn (snd (printReceipt req sample_world))) = Closed
  /\ tmpdir (world (snd (printReceipt req sample_world))) = ∅.
Proof. repeat split; vm_compute; reflexivity. Qed.

Lemma dividers_between_segments_witness :
  exists l,
    emitted hello_world sample_world = Some l
    /\ is_Some (assets sample_world !! DIVIDER_IMAGE_PATH)
    /\ length (split DIVIDER_MARKER (body hello_world)) = 2
    /\ count_dividers l = 1.
Proof.
  assert (Hrun : exists l, emitted hello_world sample_world = Some l)
    by (eexists; vm_compute; reflexivity).
  destruct Hrun as [l Hl]. exists l. split; [exact Hl|].
  assert (Hfile : is_Some (assets sample_world !! DIVIDER_IMAGE_PATH))
    by (eexists; vm_compute; reflexivity).
  split; [exact Hfile|].
  destruct (dividers_between_segments hello_world) as (Hsegments & Hruns).
  destruct (Hruns sample_world l Hl Hfile) as (Hcount & _).
  split; [exact Hsegments|exact Hcount].
Defined.

Lemma emitted_in_fixed_order_witness :
  exists l,
    emitted hello_world sample_world = Some l
    /\ req_orderDetails hello_world <> OrderOther
    /\ [Raster Header [1; 2; 3]%N; Text (lit "Hello"); Raster Divider [4; 5]%N;
        Text (lit "World"); Text BRANDED_FOOTER; Cut] `sublist_of` l.
Proof.
  assert (Hrun : exists l, emitted hello_world sample_world = Some l)
    by (eexists; vm_compute; reflexivity).
  destruct Hrun as [l Hl]. exists l. split; [exact Hl|].
  assert (Hstring : req_orderDetails hello_world <> OrderOther) by discriminate.
  split; [exact Hstring|].
  destruct (emitted_in_fixed_order hello_world sample_world l Hl Hstring)
    as (job & Hjob & _ & _ & Hhello).
  assert (Hresolved : resolve_job (assets sample_world) hello_world
    = Some {| headerImage := [1; 2; 3]%N; dividerImage := Some [4; 5]%N;
              footerImage := None; bodyImage := None;
              bodySegments := [lit "Hello"; lit "World"];
              orderDetails := OrderAbsent |})
    by (vm_compute; reflexivity).
  rewrite Hresolved in Hjob. injection Hjob as <-.
  exact (Hhello eq_refl _ eq_refl).
Defined.

Lemma missing_header_fails_first_witness :
  assets bare_world !! HEADER_LOGO_PATH = None
  /\ printReceipt hello_world bare_world
     = (Throw "Header logo not found: logo.png must exist in project root",
        start bare_world)
  /\ emitted hello_world bare_world = None.
Proof.
  assert (Hmissing : assets bare_world !! HEADER_LOGO_PATH = None)
    by (vm_compute; reflexivity).
  split; [exact Hmissing|].
  exact (missing_header_fails_first hello_world bare_world Hmissing).
Defined.

(** C5, as the specification has it, fails: the divider is converted at
    the full printer width, which is not the width of the footer. *)
Lemma divider_converted_at_full_width :
  In (Divider, PRINTER_WIDTH_PX)
     (converted (snd (printReceipt hello_world sample_world)))
  /\ PRINTER_WIDTH_PX <> FOOTER_IMAGE_WIDTH_PX
  /\ ~ Forall (fun entry => snd entry = specified_width (fst entry))
             (converted (snd (printReceipt hello_world sample_world))).
Proof.
  assert (Htrace : converted (snd (printReceipt hello_world sample_world))
                   = [(Header, 576%Z); (Divider, 576%Z)])
    by (vm_compute; reflexivity).
  rewrite Htrace. split; [right; left; reflexivity|].
  split; [discriminate|]. intros Hall.
  apply Forall_cons in Hall as [_ Hall].
  apply Forall_cons in Hall as [Hdivider _].
  vm_compute in Hdivider. discriminate Hdivider.
Qed.

(** C6 on the code: when the timer fires first, [printReceipt] reports the
    timeout, but the device it opened is still connecting, its open
    callback is still held by the driver, and once the connection is
    there the whole receipt is printed all the same. *)
Lemma timeout_leaves_connection_open :
  let run := printReceipt hello_world slow_world in
  fst run = Throw "Printer connection timeout"
  /\ device (conn (snd run)) = Connecting
  /\ is_Some (open_cb (conn (snd run)))
  /\ schedule (world (snd run)) = [EvOpen None; EvClosed]
  /\ device (conn (settle (snd run))) = Closed
  /\ emitted hello_world slow_world = emitted hello_world sample_world
  /\ exists l, emitted hello_world slow_world = Some l /\ List.last l (Feed 0) = Cut.
Proof.
  cbv zeta. repeat split; try (vm_compute; reflexivity).
  - eexists. vm_compute. reflexivity.
  - eexists. split; vm_compute; reflexivity.
Qed.


(** A temp file that cannot be deleted: the run succeeds all the same, the
    file stays in the temp directory, the other one is removed, and the
    error is logged. *)
Example undeletable_file_stays :
  let f := snd (printReceipt hello_world locked_world) in
  fst (printReceipt hello_world locked_world) = Normal tt
  /\ written f = [("receipt-header-"%string, 1700000000000%Z);
                  ("receipt-divider-"%string, 1700000000001%Z)]
  /\ tmpdir locked_world !! ("receipt-header-"%string, 1700000000000%Z) = None
  /\ tmpdir (world f) !! ("receipt-header-"%string, 1700000000000%Z)
     = Some [1; 2; 3]%N
  /\ tmpdir (world f) !! ("receipt-divider-"%string, 1700000000001%Z) = None
  /\ warnings f = ["EPERM: operation not permitted, unlink"%string].
Proof. cbv zeta. repeat split; vm_compute; reflexivity. Qed.


Example files_of_others_untouched :
  let f := snd (printReceipt hello_world crowded_world) in
  tmpdir (world f) = tmpdir crowded_world.
Proof. vm_compute. reflexivity. Qed.

Lemma oversized_body_rejected_witness :
  field_body oversized = JsStr (repeat 97%N 4001)
  /\ length (repeat 97%N 4001) = 4001
  /\ exists message,
       post_print oversized sample_world
       = (Some {| status := 400; ok := false; error := Some message |}, None).
Proof.
  assert (Hlen : length (repeat 97%N 4001) = 4001) by apply repeat_length.
  split; [reflexivity|]. split; [exact Hlen|].
  exact (oversized_body_rejected oversized sample_world _ eq_refl Hlen).
Defined.

Example body_of_4000_printed :
  let req := {| field_body := JsStr (repeat 97%N 4000); upload := None;
                field_orderDetails := JsUndefined |} in
  fst (post_print req sample_world)
  = Some {| status := 200; ok := true; error := None |}.
Proof. vm_compute. reflexivity. Qed.

Lemma emitted_deterministic_witness :
  exists l1 l2,
    assets sample_world !! HEADER_LOGO_PATH
    = assets annotated_world !! HEADER_LOGO_PATH
    /\ assets sample_world !! DIVIDER_IMAGE_PATH
       = assets annotated_world !! DIVIDER_IMAGE_PATH
    /\ assets sample_world !! FOOTER_IMAGE_PATH
       = assets annotated_world !! FOOTER_IMAGE_PATH
    /\ emitted hello_world sample_world = Some l1
    /\ emitted hello_world annotated_world = Some l2
    /\ l1 = l2.
Proof.
  assert (Hrun1 : exists l, emitted hello_world sample_world = Some l)
    by (eexists; vm_compute; reflexivity).
  assert (Hrun2 : exists l, emitted hello_world annotated_world = Some l)
    by (eexists; vm_compute; reflexivity).
  destruct Hrun1 as [l1 H1]. destruct Hrun2 as [l2 H2]. exists l1, l2.
  assert (Hheader : assets sample_world !! HEADER_LOGO_PATH
                    = assets annotated_world !! HEADER_LOGO_PATH)
    by (vm_compute; reflexivity).
  assert (Hdivider : assets sample_world !! DIVIDER_IMAGE_PATH
                     = assets annotated_world !! DIVIDER_IMAGE_PATH)
    by (vm_compute; reflexivity).
  assert (Hfooter : assets sample_world !! FOOTER_IMAGE_PATH
                    = assets annotated_world !! FOOTER_IMAGE_PATH)
    by (vm_compute; reflexivity).
  split; [exact Hheader|]. split; [exact Hdivider|]. split; [exact Hfooter|].
  split; [exact H1|]. split; [exact H2|].
  exact (emitted_deterministic hello_world sample_world annotated_world l1 l2
           Hheader Hdivider Hfooter H1 H2).
Defined.

(** The two project roots of that run are not the same: one holds a file
    the other has not. *)
Example annotated_world_differs :
  assets annotated_world !! "README.md"%string = Some [35; 32]%N
  /\ assets sample_world !! "README.md"%string = None
  /\ assets sample_world <> assets annotated_world.
Proof.
  split; [vm_compute; reflexivity|]. split; [vm_compute; reflexivity|].
  intros Hsame.
  apply (f_equal (fun files => files !! "README.md"%string)) in Hsame.
  vm_compute in Hsame. discriminate Hsame.
Qed.

(** * Further properties of the code *)

(** ** [split] and [trim] *)

Section MoreStrings.

Lemma join_singletons s : join [] (List.map (fun c => [c]) s) = s.
Proof.
  induction s as [|c s IH]; [reflexivity|].
  cbn [List.map join]. destruct s as [|c' s]; [reflexivity|].
  cbn [List.map] in *. rewrite IH. reflexivity.
Qed.

(** X1.  Joining the segments of [split] with the separator gives the
    string back, for every separator, the empty one included. *)
Theorem split_join_roundtrip sep s : join sep (split sep s) = s.
Proof.
  destruct sep as [|a sep].
  - apply join_singletons.
  - change (split (a :: sep) s) with (split_from (a :: sep) 0 [] s).
    rewrite split_from_join;
      [reflexivity|discriminate|lia|rewrite Nat.sub_0_r, skipn_all; reflexivity].
Qed.

Lemma startsWith_app sep s rest :
  startsWith sep s = true -> startsWith sep (s ++ rest) = true.
Proof.
  revert s. induction sep as [|a sep IH]; intros s Hm; [reflexivity|].
  destruct s as [|c s]; [discriminate Hm|].
  apply startsWith_cons in Hm as [-> Hm].
  cbn [app startsWith]. rewrite N.eqb_refl. apply IH, Hm.
Qed.

Lemma occurrences_none sep s :
  (forall i, i < length s -> startsWith sep (skipn i s) = false) ->
  occurrences sep s = 0.
Proof.
  induction s as [|c s IH]; intros Hnone; [reflexivity|].
  cbn [occurrences].
  assert (H0 : startsWith sep (c :: s) = false)
    by (apply (Hnone 0); cbn [length]; lia).
  rewrite H0.
  apply IH. intros i Hi. apply (Hnone (S i)). cbn [length]. lia.
Qed.

(** The scan closes a segment only at a match and keeps in it only code
    units at which the separator did not match. *)
Lemma split_from_marker_free sep : forall s n cur,
  (forall i, i < length cur ->
     startsWith sep (skipn i (rev cur ++ skipn n s)) = false) ->
  Forall (fun segment => occurrences sep segment = 0) (split_from sep n cur s).
Proof.
  assert (Hclose : forall cur rest,
    (forall i, i < length cur ->
       startsWith sep (skipn i (rev cur ++ rest)) = false) ->
    occurrences sep (rev cur) = 0).
  { intros cur rest Hnone. apply occurrences_none. intros i Hi.
    rewrite length_rev in Hi. specialize (Hnone i Hi).
    rewrite skipn_app in Hnone.
    destruct (startsWith sep (skipn i (rev cur))) eqn:Hm; [|reflexivity].
    rewrite (startsWith_app _ _ _ Hm) in Hnone. discriminate Hnone. }
  induction s as [|c s IH]; intros n cur Hnone.
  - cbn [split_from]. constructor; [|constructor]. exact (Hclose cur _ Hnone).
  - destruct n as [|n]; cbn [split_from].
    + cbn [skipn] in Hnone. destruct (startsWith sep (c :: s)) eqn:Hm.
      * constructor; [exact (Hclose cur _ Hnone)|].
        apply IH. intros i Hi. cbn [length] in Hi. lia.
      * apply IH. intros i Hi. cbn [skipn rev].
        rewrite <- app_assoc. cbn [app].
        cbn [length] in Hi.
        destruct (Nat.eq_dec i (length cur)) as [->|Hne].
        -- rewrite skipn_app, <- (length_rev cur), skipn_all, Nat.sub_diag.
           exact Hm.
        -- apply Hnone. lia.
    + apply IH. exact Hnone.
Qed.

(** No segment that [split] returns for a non-empty separator holds the
    separator. *)
Lemma split_segments_marker_free sep s :
  sep <> [] ->
  Forall (fun segment => occurrences sep segment = 0) (split sep s).
Proof.
  intros Hsep. destruct sep as [|a sep]; [contradiction|].
  change (split (a :: sep) s) with (split_from (a :: sep) 0 [] s).
  apply split_from_marker_free. intros i Hi. cbn [length] in Hi. lia.
Qed.

(** X3.  A body without divider marker is one segment, the body itself. *)
Theorem no_marker_single_segment body :
  occurrences DIVIDER_MARKER body = 0 ->
  split DIVIDER_MARKER body = [body].
Proof.
  intros Hnone.
  pose proof (split_divider_length body) as Hlen. rewrite Hnone in Hlen.
  pose proof (split_divider_join body) as Hjoin.
  destruct (split DIVIDER_MARKER body) as [|segment [|segment' rest]];
    try discriminate Hlen.
  cbn [join] in Hjoin. rewrite Hjoin. reflexivity.
Qed.

Lemma trimStart_split s :
  exists spaces, s = spaces ++ trimStart s /\ forallb isWhiteSpace spaces = true.
Proof.
  induction s as [|c s (spaces & Hs & Hspaces)].
  - exists []. split; reflexivity.
  - cbn [trimStart]. destruct (isWhiteSpace c) eqn:Hc.
    + exists (c :: spaces). split; [cbn [app]; rewrite <- Hs; reflexivity|].
      cbn [forallb]. rewrite Hc. exact Hspaces.
    + exists []. split; reflexivity.
Qed.

Lemma trimEnd_split s :
  exists spaces, s = trimEnd s ++ spaces /\ forallb isWhiteSpace spaces = true.
Proof.
  unfold trimEnd. destruct (trimStart_split (rev s)) as (spaces & Hs & Hspaces).
  exists (rev spaces). split.
  - rewrite <- rev_app_distr, <- Hs, rev_involutive. reflexivity.
  - rewrite forallb_forall in *. intros c Hc. apply Hspaces, in_rev, Hc.
Qed.

Lemma trim_head s c r : trim s = c :: r -> isWhiteSpace c = false.
Proof.
  unfold trim. intros Ht.
  destruct (trimEnd_split (trimStart s)) as (spaces & Hs & _).
  rewrite Ht in Hs. cbn [app] in Hs. exact (trimStart_head _ _ _ Hs).
Qed.

Lemma trim_strips_both_ends_aux s :
  exists before after,
    s = before ++ trim s ++ after
    /\ forallb isWhiteSpace before = true
    /\ forallb isWhiteSpace after = true.
Proof.
  destruct (trimStart_split s) as (before & Hs & Hbefore).
  destruct (trimEnd_split (trimStart s)) as (after & Ht & Hafter).
  exists before, after. fold (trim s) in Ht.
  split; [rewrite <- Ht; exact Hs|]. split; [exact Hbefore|exact Hafter].
Qed.

(** X4.  [trim] removes white space at both ends and nothing else: the
    string is its trimmed form between two runs of white space, and the
    trimmed form neither starts nor ends with white space. *)
Theorem trim_strips_both_ends s :
  exists before after,
    s = before ++ trim s ++ after
    /\ forallb isWhiteSpace before = true
    /\ forallb isWhiteSpace after = true
    /\ (forall c r, trim s = c :: r -> isWhiteSpace c = false)
    /\ (forall r c, trim s = r ++ [c] -> isWhiteSpace c = false).
Proof.
  destruct (trim_strips_both_ends_aux s) as (before & after & Hs & Hb & Ha).
  exists before, after.
  split; [exact Hs|]. split; [exact Hb|]. split; [exact Ha|].
  split; [apply trim_head|apply trim_last].
Qed.

Lemma trimStart_blank s : forallb isWhiteSpace s = true -> trimStart s = [].
Proof.
  induction s as [|c s IH]; [reflexivity|].
  cbn [forallb trimStart]. intros Hall.
  apply andb_true_iff in Hall as [-> Hall]. apply IH, Hall.
Qed.

(** X5.  A string is blank for the code, its [trim()] being falsy, exactly
    when it consists of white space only. *)
Theorem blank_iff_only_white_space s :
  truthy (trim s) = false <-> forallb isWhiteSpace s = true.
Proof.
  split.
  - intros Hblank.
    destruct (trim_strips_both_ends_aux s) as (before & after & Hs & Hb & Ha).
    destruct (trim s); [|discriminate Hblank].
    rewrite Hs, forallb_app, Hb. exact Ha.
  - intros Hall. unfold trim. rewrite (trimStart_blank s Hall). reflexivity.
Qed.

(** Trimming twice is trimming once. *)
Lemma trim_idempotent s : trim (trim s) = trim s.
Proof.
  assert (Hstart : trimStart (trim s) = trim s).
  { destruct (trim s) as [|c r] eqn:Ht; [reflexivity|].
    cbn [trimStart]. rewrite (trim_head s c r Ht). reflexivity. }
  unfold trim at 1. rewrite Hstart. unfold trimEnd.
  destruct (rev (trim s)) as [|c r] eqn:Hrev.
  - apply (f_equal (@rev N)) in Hrev. rewrite rev_involutive in Hrev.
    rewrite Hrev. reflexivity.
  - assert (Hlast : trim s = rev r ++ [c]).
    { apply (f_equal (@rev N)) in Hrev. rewrite rev_involutive in Hrev.
      exact Hrev. }
    cbn [trimStart]. rewrite (trim_last s (rev r) c Hlast).
    rewrite Hlast. reflexivity.
Qed.

End MoreStrings.

(** ** What the callback writes, by kind of directive *)

Section MoreComposition.
Context `{Capabilities}.

(** X6.  The rasters of a receipt whose order details are a string or
    absent: the header, one divider for each gap between segments if
    there is a divider image, the body image if there is one, the footer
    if there is one, in this order; an image that was not resolved is
    never printed. *)
Theorem rasters_of_receipt job details :
  orderDetails job = order_of details ->
  rasters (compose_receipt job)
  = [(Header, headerImage job)]
    ++ match dividerImage job with
       | Some image => repeat (Divider, image) (length (bodySegments job) - 1)
       | None => []
       end
    ++ optional_raster BodyImage (bodyImage job)
    ++ optional_raster Footer (footerImage job).
Proof.
  intros Hod. rewrite (compose_receipt_parts job details Hod).
  rewrite !rasters_app. unfold body_part. rewrite rasters_body.
  unfold header_part, body_image_part, footer_part, order_directives.
  destruct (bodyImage job), (footerImage job), details as [s|];
    try destruct (truthy (trim s)); cbn [rasters app optional_raster];
    rewrite ?app_nil_r; reflexivity.
Qed.

(** X7.  The texts of such a receipt: the two blank feeds around the
    header, the non-blank body segments as they are (not trimmed) and in
    their order, a blank feed, one more after the body image, the branded
    footer and a blank feed, and the trimmed order details between two
    blank feeds when they are not blank. *)
Theorem texts_of_receipt job details :
  orderDetails job = order_of details ->
  texts (compose_receipt job)
  = [BLANK_FEED; BLANK_FEED]
    ++ List.filter (fun segment => truthy (trim segment)) (bodySegments job)
    ++ [BLANK_FEED]
    ++ match bodyImage job with Some _ => [BLANK_FEED] | None => [] end
    ++ [BRANDED_FOOTER; BLANK_FEED]
    ++ match details with
       | Some s => if truthy (trim s) then [BLANK_FEED; trim s; BLANK_FEED] else []
       | None => []
       end.
Proof.
  intros Hod. rewrite (compose_receipt_parts job details Hod).
  rewrite !texts_app. unfold body_part. rewrite texts_body.
  unfold header_part, body_image_part, footer_part, order_directives.
  destruct (bodyImage job), (footerImage job), details as [s|];
    try destruct (truthy (trim s)); cbn [texts app];
    rewrite ?app_nil_r; reflexivity.
Qed.

End MoreComposition.

(** ** The loading phase, completed *)

Section MoreLoading.
Context `{Capabilities}.

Lemma yields_ret {A} (I : Frame -> Prop) (a : A) : yields I (ret a) a.
Proof. intros f Hf. split; [exact Hf|reflexivity]. Qed.

Lemma yields_bind {A B} (I : Frame -> Prop) (m : M A) (k : A -> M B) a b :
  yields I m a -> yields I (k a) b -> yields I (bind m k) b.
Proof.
  intros Hm Hk f Hf. destruct (Hm f Hf) as [Hf' Ha].
  unfold bind. destruct (m f) as [r f']. cbn in Hf', Ha. subst r.
  exact (Hk f' Hf').
Qed.

Lemma yields_existsSync w0 path :
  yields (sound w0) (existsSync path)
         (bool_decide (is_Some (assets w0 !! path))).
Proof.
  intros f Hf. split; [exact Hf|]. cbn.
  rewrite (sound_assets w0 f Hf). reflexivity.
Qed.

Lemma yields_readFileSync w0 path data :
  assets w0 !! path = Some data ->
  yields (sound w0) (readFileSync path) data.
Proof.
  intros Hdata f Hf. unfold readFileSync.
  rewrite (sound_assets w0 f Hf), Hdata. split; [exact Hf|reflexivity].
Qed.

Lemma yields_load_temp_image w0 role prefix buffer width image :
  width = role_width role ->
  converted_image buffer width = Some image ->
  yields (sound w0) (load_temp_image role prefix buffer width) image.
Proof.
  intros Hwidth Himage f Hf.
  split; [exact (proj1 (keeps_load_temp_image w0 role prefix buffer width
                          Hwidth f Hf))|].
  unfold converted_image in Himage.
  unfold load_temp_image, bind, processImage, Date_now, writeFileSync,
    tempFiles_push, loadEscposImage.
  destruct (sharp buffer width) as [message|data]; [discriminate Himage|].
  cbn. rewrite lookup_insert_eq.
  destruct (Image_load data); try discriminate Himage.
  injection Himage as <-. reflexivity.
Qed.

Lemma yields_load_optional w0 role path prefix width image :
  width = role_width role ->
  optional_image (assets w0 !! path) width = Some image ->
  yields (sound w0) (load_optional role path prefix width) image.
Proof.
  intros Hwidth Himage. unfold load_optional.
  eapply yields_bind; [apply yields_existsSync|].
  destruct (assets w0 !! path) as [data|] eqn:Hfile.
  - rewrite bool_decide_eq_true_2 by eauto.
    unfold optional_image in Himage.
    destruct (converted_image data width) as [i|] eqn:Hi; [|discriminate Himage].
    injection Himage as <-.
    eapply yields_bind; [apply (yields_readFileSync _ _ _ Hfile)|].
    eapply yields_bind; [apply (yields_load_temp_image _ _ _ _ _ _ Hwidth Hi)|].
    apply yields_ret.
  - rewrite bool_decide_eq_false_2 by (intros [? ?]; discriminate).
    injection Himage as <-. apply yields_ret.
Qed.

Lemma yields_load_images w0 req job :
  resolve_job (assets w0) req = Some job ->
  yields (sound w0) (load_images req) job.
Proof.
  unfold resolve_job. intros Hjob.
  destruct (assets w0 !! HEADER_LOGO_PATH) as [headerBuffer|] eqn:Hheader;
    [|discriminate Hjob].
  destruct (converted_image headerBuffer PRINTER_WIDTH_PX) as [header|] eqn:Hh;
    [|discriminate Hjob].
  destruct (optional_image (assets w0 !! DIVIDER_IMAGE_PATH) PRINTER_WIDTH_PX)
    as [divider|] eqn:Hd; [|discriminate Hjob].
  destruct (optional_image (assets w0 !! FOOTER_IMAGE_PATH) FOOTER_IMAGE_WIDTH_PX)
    as [footer|] eqn:Hf; [|discriminate Hjob].
  destruct (optional_image (bodyImageBuffer req) FOOTER_IMAGE_WIDTH_PX)
    as [image|] eqn:Hb; [|discriminate Hjob].
  injection Hjob as <-. unfold load_images.
  eapply yields_bind; [apply yields_existsSync|].
  rewrite Hheader, bool_decide_eq_true_2 by eauto. cbn [negb].
  eapply yields_bind; [apply (yields_readFileSync _ _ _ Hheader)|].
  eapply yields_bind;
    [apply yields_load_temp_image; [reflexivity|exact Hh]|].
  eapply yields_bind; [apply yields_load_optional; [reflexivity|exact Hd]|].
  eapply yields_bind; [apply yields_load_optional; [reflexivity|exact Hf]|].
  eapply (yields_bind _ _ _ image).
  - unfold optional_image in Hb. destruct (bodyImageBuffer req) as [buffer|].
    + destruct (converted_image buffer FOOTER_IMAGE_WIDTH_PX) as [i|] eqn:Hi;
        [|discriminate Hb].
      injection Hb as <-.
      eapply yields_bind;
        [apply yields_load_temp_image; [reflexivity|exact Hi]|].
      apply yields_ret.
    + injection Hb as <-. apply yields_ret.
  - apply yields_ret.
Qed.

(** The loading phase ends in one of two ways. *)
Lemma load_images_cases req w :
  (exists job, fst (load_images req (start w)) = Normal job
               /\ resolve_job (assets w) req = Some job)
  \/ (exists message, fst (load_images req (start w)) = Throw message
                      /\ resolve_job (assets w) req = None).
Proof.
  destruct (keeps_load_images w req (start w) (sound_start w))
    as (_ & Hhang & Hjob).
  destruct (fst (load_images req (start w))) as [job|message|] eqn:Hload.
  - left. exists job. split; [reflexivity|]. apply Hjob. reflexivity.
  - right. exists message. split; [reflexivity|].
    destruct (resolve_job (assets w) req) as [job|] eqn:Hres; [|reflexivity].
    destruct (yields_load_images w req job Hres (start w) (sound_start w))
      as [_ Hnormal].
    rewrite Hload in Hnormal. discriminate Hnormal.
  - contradiction.
Qed.

(** X8.  The loading phase of [printReceipt] yields a job exactly when the
    logo exists and every image that is there converts and decodes; the
    job is then the one built from the converted images, the segments of
    the body and the order details, whatever the clock and the temp
    directory. *)
Theorem load_images_resolves req w job :
  fst (load_images req (start w)) = Normal job
  <-> resolve_job (assets w) req = Some job.
Proof.
  split.
  - intros Hload.
    destruct (keeps_load_images w req (start w) (sound_start w))
      as (_ & _ & Hjob).
    apply Hjob, Hload.
  - intros Hres.
    exact (proj2 (yields_load_images w req job Hres (start w) (sound_start w))).
Qed.

(** A run whose loading phase throws: the error is passed on, no device
    is created, and nothing is ever printed. *)
Lemma asset_failure_run req w message :
  fst (load_images req (start w)) = Throw message ->
  fst (printReceipt req w) = Throw message
  /\ conn (snd (printReceipt req w)) = idle
  /\ schedule (world (snd (printReceipt req w))) = schedule w
  /\ emitted req w = None.
Proof.
  intros Hload.
  assert (Hrun : fst (printReceipt req w) = Throw message
    /\ conn (snd (printReceipt req w)) = idle
    /\ schedule (world (snd (printReceipt req w))) = schedule w).
  { destruct (printReceipt_run req w)
      as (f1 & Hsound & [(m & Hl & ->)|(job & Hl & _)]);
      rewrite Hl in Hload; [|discriminate Hload].
    injection Hload as ->. cbn [fst snd].
    destruct (cleaned_fields f1) as (-> & _ & _ & _ & -> & _).
    split; [reflexivity|].
    split; [exact (sound_conn w f1 Hsound)|exact (sound_schedule w f1 Hsound)]. }
  destruct Hrun as (Hthrow & Hidle & Hschedule).
  repeat split; auto.
  unfold emitted, settle. cbn [conn with_conn]. rewrite Hidle.
  apply fold_fire_quiet; reflexivity.
Qed.

(** X9.  When an image fails before the network phase (the logo is
    missing, or an image does not convert or decode), [printReceipt]
    throws that error without creating a device: the events of the
    schedule are left untouched and no directive is ever emitted. *)
Theorem asset_failure_aborts_before_network req w message :
  fst (load_images req (start w)) = Throw message ->
  fst (printReceipt req w) = Throw message
  /\ conn (snd (printReceipt req w)) = idle
  /\ schedule (world (snd (printReceipt req w))) = schedule w
  /\ emitted req w = None.
Proof. exact (asset_failure_run req w message). Qed.

(** X10.  An optional image that is there but does not convert or decode
    is not skipped like a missing one: the run fails and prints nothing. *)
Theorem corrupt_optional_image_fails req w data :
  (assets w !! DIVIDER_IMAGE_PATH = Some data
   /\ converted_image data PRINTER_WIDTH_PX = None)
  \/ (assets w !! FOOTER_IMAGE_PATH = Some data
      /\ converted_image data FOOTER_IMAGE_WIDTH_PX = None)
  \/ (bodyImageBuffer req = Some data
      /\ converted_image data FOOTER_IMAGE_WIDTH_PX = None) ->
  exists message,
    fst (printReceipt req w) = Throw message /\ emitted req w = None.
Proof.
  intros Hcorrupt.
  assert (Hopt :
    optional_image (assets w !! DIVIDER_IMAGE_PATH) PRINTER_WIDTH_PX = None
    \/ optional_image (assets w !! FOOTER_IMAGE_PATH) FOOTER_IMAGE_WIDTH_PX = None
    \/ optional_image (bodyImageBuffer req) FOOTER_IMAGE_WIDTH_PX = None).
  { destruct Hcorrupt as [[Hfile Hbad]|[[Hfile Hbad]|[Hfile Hbad]]];
      [left|right; left|right; right];
      rewrite Hfile; unfold optional_image; rewrite Hbad; reflexivity. }
  assert (Hres : resolve_job (assets w) req = None).
  { unfold resolve_job.
    destruct (assets w !! HEADER_LOGO_PATH) as [headerBuffer|]; [|reflexivity].
    destruct (converted_image headerBuffer PRINTER_WIDTH_PX); [|reflexivity].
    destruct (optional_image (assets w !! DIVIDER_IMAGE_PATH) PRINTER_WIDTH_PX);
      [|reflexivity].
    destruct (optional_image (assets w !! FOOTER_IMAGE_PATH)
                FOOTER_IMAGE_WIDTH_PX); [|reflexivity].
    destruct (optional_image (bodyImageBuffer req) FOOTER_IMAGE_WIDTH_PX);
      [|reflexivity].
    destruct Hopt as [Hnone|[Hnone|Hnone]]; discriminate Hnone. }
  destruct (load_images_cases req w)
    as [(job & _ & Hjob)|(message & Hload & _)].
  - rewrite Hres in Hjob. discriminate Hjob.
  - exists message.
    destruct (asset_failure_run req w message Hload) as (Hthrow & _ & _ & Hnone).
    split; assumption.
Qed.

End MoreLoading.

(** ** The network phase, event by event *)

Section MoreNetwork.
Context `{Capabilities}.

(** A run whose loading phase yields a job: what it returns and the
    connection objects it leaves are those of the awaited promise. *)
Lemma network_run req w job :
  fst (load_images req (start w)) = Normal job ->
  let run := await_loop (schedule w) (opened job) in
  fst (printReceipt req w) = outcome (promise (fst run))
  /\ conn (snd (printReceipt req w)) = fst run
  /\ schedule (world (snd (printReceipt req w))) = snd run.
Proof.
  intros Hload.
  destruct (printReceipt_run req w)
    as (f1 & Hsound & [(m & Hl & _)|(job' & Hl & _ & _ & ->)]);
    rewrite Hl in Hload; [discriminate Hload|].
  injection Hload as ->. cbv zeta. cbn [fst snd].
  match goal with
  | |- context [cleaned ?g] =>
      destruct (cleaned_fields g) as (-> & _ & _ & _ & -> & _)
  end.
  repeat split.
Qed.

Lemma resolved_loads req w job :
  resolve_job (assets w) req = Some job ->
  fst (load_images req (start w)) = Normal job.
Proof.
  intros Hres.
  exact (proj2 (yields_load_images w req job Hres (start w) (sound_start w))).
Qed.

Lemma await_step e evs c :
  promise c = Pending -> await_loop (e :: evs) c = await_loop evs (fire e c).
Proof. intros Hp. cbn [await_loop]. rewrite Hp. reflexivity. Qed.

Lemma print_job_completion job :
  (orderDetails job <> OrderOther /\ snd (print_job job) = Normal tt)
  \/ (orderDetails job = OrderOther
      /\ snd (print_job job) = Throw "orderDetails.trim is not a function").
Proof.
  unfold print_job. destruct (orderDetails job); cbn [snd].
  - left. split; [discriminate|reflexivity].
  - left. split; [discriminate|reflexivity].
  - right. split; reflexivity.
Qed.

Lemma fire_open_ok job :
  snd (print_job job) = Normal tt ->
  fire (EvOpen None) (opened job)
  = {| promise := Pending; timer := true; device := Open; open_cb := None;
       close_cb := true; printer := Some (compose_receipt job) |}.
Proof.
  intros Hdone. unfold compose_receipt. cbn.
  destruct (print_job job) as [buffer r]. cbn in Hdone. subst r. reflexivity.
Qed.

Lemma fire_open_throw job message :
  snd (print_job job) = Throw message ->
  fire (EvOpen None) (opened job)
  = {| promise := Rejected ("Print failed: " ++ message); timer := false;
       device := Closed; open_cb := None; close_cb := false;
       printer := Some (compose_receipt job) |}.
Proof.
  intros Hthrown. unfold compose_receipt. cbn.
  destruct (print_job job) as [buffer r]. cbn in Hthrown. subst r. reflexivity.
Qed.

Lemma receipt_ends_with_cut job :
  orderDetails job <> OrderOther ->
  exists front, compose_receipt job = front ++ [Feed 3; Cut].
Proof.
  intros Hother.
  assert (Hdetails : exists details, orderDetails job = order_of details).
  { destruct (orderDetails job) as [|s|].
    - exists None. reflexivity.
    - exists (Some s). reflexivity.
    - contradiction. }
  destruct Hdetails as [details Hdetails].
  rewrite (compose_receipt_parts job details Hdetails).
  eexists. rewrite !app_assoc. reflexivity.
Qed.

Lemma orderly_opened job : orderly job (opened job).
Proof. split; cbn; [auto|discriminate|discriminate]. Qed.

Ltac orderly_solve :=
  split; cbn; intros;
  repeat match goal with
         | Himp : ?x = ?x -> _ |- _ => specialize (Himp eq_refl)
         | Himp : ?a = ?b -> _, Heq : ?a = ?b |- _ => specialize (Himp Heq)
         | Hand : _ /\ _ |- _ => destruct Hand
         end;
  repeat split; auto; try congruence; try discriminate.

Lemma fire_orderly job e c : orderly job c -> orderly job (fire e c).
Proof.
  intros [Hcb Hclosing Hresolved].
  destruct c as [p t d o cl pr].
  cbn [promise timer device open_cb close_cb printer]
    in Hcb, Hclosing, Hresolved.
  destruct e as [|[message|]|]; cbn.
  - destruct t, p; orderly_solve.
  - destruct o, p; cbn; orderly_solve.
  - destruct o as [job'|]; [|orderly_solve].
    destruct Hcb as [[= ->]|Hcb]; [|discriminate Hcb].
    rewrite (surjective_pairing (print_job job)).
    change (fst (print_job job)) with (compose_receipt job).
    destruct (print_job_completion job) as [[_ Hr]|[_ Hr]]; rewrite Hr;
      destruct p; cbn -[compose_receipt print_job]; orderly_solve.
  - destruct cl, p; cbn; orderly_solve.
Qed.

Lemma await_loop_orderly job : forall evs c,
  orderly job c -> orderly job (fst (await_loop evs c)).
Proof.
  induction evs as [|e evs IH]; intros c Hc; cbn [await_loop].
  - destruct (promise c); cbn [fst]; auto. apply fire_orderly, Hc.
  - destruct (promise c); cbn [fst]; auto. apply IH, fire_orderly, Hc.
Qed.

(** The errors a pending promise can be rejected with. *)
Lemma fire_error events job e c :
  In e events ->
  (open_cb c = Some job \/ open_cb c = None) ->
  (forall m, promise c = Rejected m -> network_error events m) ->
  forall m, promise (fire e c) = Rejected m -> network_error events m.
Proof.
  intros He Hcb Herr m. destruct c as [p t d o cl pr]. cbn in *.
  destruct e as [|[message|]|]; cbn.
  - destruct t; [|apply Herr]. destruct p; cbn; try apply Herr.
    intros [= <-]. left. reflexivity.
  - destruct o as [job'|]; [|apply Herr]. destruct p; cbn; try apply Herr.
    intros [= <-]. right. left. exists message. split; [exact He|reflexivity].
  - destruct o as [job'|]; [|apply Herr].
    destruct Hcb as [[= ->]|Hcb]; [|discriminate Hcb].
    destruct (print_job_completion job) as [[_ Hdone]|[_ Hthrown]].
    + destruct (print_job job) as [buffer r]. cbn in Hdone. subst r.
      cbn. apply Herr.
    + destruct (print_job job) as [buffer r]. cbn in Hthrown. subst r.
      cbn. destruct p; cbn; try apply Herr.
      intros [= <-]. right. right. reflexivity.
  - destruct cl; [|apply Herr]. destruct p; cbn; try apply Herr. discriminate.
Qed.

Lemma await_loop_error events job : forall evs c,
  (forall e, In e evs -> In e events) ->
  built job c ->
  (forall m, promise c = Rejected m -> network_error events m) ->
  forall m, promise (fst (await_loop evs c)) = Rejected m ->
            network_error events m.
Proof.
  assert (Hcb : forall c, built job c -> open_cb c = Some job \/ open_cb c = None).
  { intros c [[Ho _]|[Ho _]]; auto. }
  induction evs as [|e evs IH]; intros c Hin Hbuilt Herr m; cbn [await_loop].
  - destruct (promise c) eqn:Hp; cbn [fst]; try (rewrite Hp; apply Herr).
    destruct c as [p t d o cl pr]. cbn in Hp. subst p.
    destruct t; cbn; [|discriminate].
    intros [= <-]. left. reflexivity.
  - destruct (promise c) eqn:Hp; cbn [fst]; try (rewrite Hp; apply Herr).
    apply IH.
    + intros e' He'. apply Hin. right. exact He'.
    + apply fire_built, Hbuilt.
    + apply (fire_error events job).
      * apply Hin. left. reflexivity.
      * apply Hcb, Hbuilt.
      * intros m0 Hm0. rewrite Hp in Hm0. discriminate Hm0.
Qed.

(** A run that completes normally. *)
Lemma normal_run req w :
  fst (printReceipt req w) = Normal tt ->
  exists job front,
    resolve_job (assets w) req = Some job
    /\ compose_receipt job = front ++ [Feed 3; Cut]
    /\ printer (conn (snd (printReceipt req w))) = Some (compose_receipt job)
    /\ device (conn (snd (printReceipt req w))) = Closed
    /\ timer (conn (snd (printReceipt req w))) = false.
Proof.
  intros Hok.
  destruct (load_images_cases req w)
    as [(job & Hload & Hjob)|(message & Hload & _)].
  2:{ destruct (asset_failure_run req w message Hload) as (Hthrow & _).
      rewrite Hthrow in Hok. discriminate Hok. }
  destruct (network_run req w job Hload) as (Hresult & -> & _).
  rewrite Hresult in Hok.
  pose proof (await_loop_orderly job (schedule w) (opened job)
                (orderly_opened job)) as [_ _ Hresolved].
  destruct (promise (fst (await_loop (schedule w) (opened job))));
    try discriminate Hok.
  destruct (Hresolved eq_refl) as (_ & _ & Hdevice & Htimer & Hprinter & Hdone).
  assert (Hother : orderDetails job <> OrderOther).
  { destruct (print_job_completion job) as [[Hother _]|[_ Hthrown]];
      [exact Hother|]. rewrite Hthrown in Hdone. discriminate Hdone. }
  destruct (receipt_ends_with_cut job Hother) as [front Hfront].
  exists job, front. repeat split; assumption.
Qed.

(** X11.  [printReceipt] completes normally only after the close callback
    has come: by then the whole receipt, down to the feed and the cut, has
    been written to the printer, the device is closed and the timer is
    cleared. *)
Theorem success_means_printed_and_closed req w :
  fst (printReceipt req w) = Normal tt ->
  exists job front,
    resolve_job (assets w) req = Some job
    /\ compose_receipt job = front ++ [Feed 3; Cut]
    /\ printer (conn (snd (printReceipt req w))) = Some (compose_receipt job)
    /\ device (conn (snd (printReceipt req w))) = Closed
    /\ timer (conn (snd (printReceipt req w))) = false.
Proof. exact (normal_run req w). Qed.

(** [printReceipt] returns. *)
Lemma printReceipt_returns req w : fst (printReceipt req w) <> Hang.
Proof.
  destruct (load_images_cases req w)
    as [(job & Hload & _)|(message & Hload & _)].
  - destruct (network_run req w job Hload) as (-> & _).
    pose proof (await_loop_settles (schedule w) (opened job) (armed_opened job))
      as Hsettled.
    destruct (promise (fst (await_loop (schedule w) (opened job))));
      [contradiction|discriminate|discriminate].
  - destruct (asset_failure_run req w message Hload) as (-> & _). discriminate.
Qed.

(** X12.  A printer that connects and then confirms the close makes the
    run succeed, and exactly these two events are taken from the
    schedule. *)
Theorem connect_then_close_succeeds req w job evs :
  resolve_job (assets w) req = Some job ->
  orderDetails job <> OrderOther ->
  schedule w = EvOpen None :: EvClosed :: evs ->
  fst (printReceipt req w) = Normal tt
  /\ schedule (world (snd (printReceipt req w))) = evs.
Proof.
  intros Hres Hother Hschedule.
  destruct (network_run req w job (resolved_loads req w job Hres))
    as (-> & _ & ->).
  destruct (print_job_completion job) as [[_ Hdone]|[Hbad _]];
    [|contradiction].
  rewrite Hschedule, await_step by reflexivity.
  rewrite (fire_open_ok job Hdone), await_step by reflexivity.
  rewrite await_loop_settled by (cbn; discriminate).
  split; reflexivity.
Qed.

(** X13.  Every error [printReceipt] throws is either the error of the
    loading phase or one of three: the timeout, a connection error the
    driver reported (with the driver's message), or the failed print. *)
Theorem errors_of_printReceipt req w message :
  fst (printReceipt req w) = Throw message ->
  fst (load_images req (start w)) = Throw message
  \/ network_error (schedule w) message.
Proof.
  intros Hthrow.
  destruct (load_images_cases req w)
    as [(job & Hload & _)|(m & Hload & _)].
  - right. destruct (network_run req w job Hload) as (Hresult & _).
    rewrite Hresult in Hthrow.
    apply (await_loop_error (schedule w) job (schedule w) (opened job)).
    + auto.
    + apply built_opened.
    + discriminate.
    + destruct (promise (fst (await_loop (schedule w) (opened job))));
        try discriminate Hthrow.
      injection Hthrow as ->. reflexivity.
  - left. destruct (asset_failure_run req w m Hload) as (Hm & _).
    rewrite Hm in Hthrow. injection Hthrow as ->. exact Hload.
Qed.

(** X14.  When the driver reports a connection error first, the run
    throws it under the prefix of the source, the device is left as it
    was, and no directive is ever emitted, whatever comes later. *)
Theorem connection_error_prints_nothing req w job e evs :
  resolve_job (assets w) req = Some job ->
  schedule w = EvOpen (Some e) :: evs ->
  fst (printReceipt req w) = Throw ("Failed to connect to printer: " ++ e)
  /\ device (conn (snd (printReceipt req w))) = Connecting
  /\ emitted req w = None.
Proof.
  intros Hres Hschedule.
  destruct (network_run req w job (resolved_loads req w job Hres))
    as (Hresult & Hconn & Hrest).
  rewrite Hschedule, await_step in Hresult, Hconn, Hrest by reflexivity.
  rewrite await_loop_settled in Hresult, Hconn, Hrest by (cbn; discriminate).
  split; [exact Hresult|]. split; [rewrite Hconn; reflexivity|].
  unfold emitted, settle. cbn [conn with_conn]. rewrite Hconn.
  apply fold_fire_quiet; reflexivity.
Qed.

(** X15.  The timer runs until the close callback, not until the
    connection: when it expires after the receipt has been written but
    before the close is confirmed, the run throws the timeout error
    although the whole receipt is in the printer. *)
Theorem timeout_after_printing req w job evs :
  resolve_job (assets w) req = Some job ->
  orderDetails job <> OrderOther ->
  schedule w = EvOpen None :: EvTimeout :: evs ->
  fst (printReceipt req w) = Throw "Printer connection timeout"
  /\ printer (conn (snd (printReceipt req w))) = Some (compose_receipt job)
  /\ device (conn (snd (printReceipt req w))) = Open
  /\ close_cb (conn (snd (printReceipt req w))) = true.
Proof.
  intros Hres Hother Hschedule.
  destruct (network_run req w job (resolved_loads req w job Hres))
    as (Hresult & Hconn & _).
  destruct (print_job_completion job) as [[_ Hdone]|[Hbad _]];
    [|contradiction].
  rewrite Hschedule, await_step in Hresult, Hconn by reflexivity.
  rewrite (fire_open_ok job Hdone), await_step in Hresult, Hconn by reflexivity.
  rewrite await_loop_settled in Hresult, Hconn by (cbn; discriminate).
  rewrite Hconn. split; [exact Hresult|]. repeat split.
Qed.

(** A run whose [try] block throws. *)
Lemma type_error_run req w job evs :
  resolve_job (assets w) req = Some job ->
  orderDetails job = OrderOther ->
  schedule w = EvOpen None :: evs ->
  fst (printReceipt req w)
  = Throw "Print failed: orderDetails.trim is not a function"
  /\ device (conn (snd (printReceipt req w))) = Closed
  /\ timer (conn (snd (printReceipt req w))) = false
  /\ printer (conn (snd (printReceipt req w)))
     = Some (header_part job ++ body_part job ++ [Text BLANK_FEED]
               ++ body_image_part job ++ branded_part).
Proof.
  intros Hres Hother Hschedule.
  destruct (network_run req w job (resolved_loads req w job Hres))
    as (Hresult & Hconn & _).
  destruct (print_job_completion job) as [[Hgood _]|[_ Hthrown]];
    [contradiction|].
  rewrite Hschedule, await_step in Hresult, Hconn by reflexivity.
  rewrite (fire_open_throw job _ Hthrown) in Hresult, Hconn.
  rewrite await_loop_settled in Hresult, Hconn by (cbn; discriminate).
  rewrite Hconn. split; [exact Hresult|]. cbn [device timer printer].
  rewrite (compose_receipt_thrown job Hother). repeat split.
Qed.

(** X16.  Order details that are truthy but no string make the [try] block
    throw once the connection is open: the run throws the print failure,
    this path clears the timer and closes the device, and the buffer stops
    after the branded footer, without feed or cut. *)
Theorem type_error_closes_device req w job evs :
  resolve_job (assets w) req = Some job ->
  orderDetails job = OrderOther ->
  schedule w = EvOpen None :: evs ->
  fst (printReceipt req w)
  = Throw "Print failed: orderDetails.trim is not a function"
  /\ device (conn (snd (printReceipt req w))) = Closed
  /\ timer (conn (snd (printReceipt req w))) = false
  /\ printer (conn (snd (printReceipt req w)))
     = Some (header_part job ++ body_part job ++ [Text BLANK_FEED]
               ++ body_image_part job ++ branded_part).
Proof. exact (type_error_run req w job evs). Qed.

End MoreNetwork.

(** ** The markers of the body *)

Section Markers.
Context `{Capabilities}.

(** The loop over the segments of a split body writes no text that holds
    the marker. *)
Lemma forEach_marker_free job text_body printer :
  bodySegments job = split DIVIDER_MARKER text_body ->
  exists loop,
    forEach (print_segment job) (bodySegments job) printer = printer ++ loop
    /\ Forall (fun content => occurrences DIVIDER_MARKER content = 0)
              (texts loop).
Proof.
  intros Hsegments. exists (body_part job).
  split; [apply forEach_print_segment|].
  unfold body_part. rewrite texts_body, Hsegments.
  apply List.Forall_forall. intros content Hin.
  apply List.filter_In in Hin as [Hin _].
  assert (Hsep : DIVIDER_MARKER <> []) by discriminate.
  pose proof (split_segments_marker_free DIVIDER_MARKER text_body Hsep) as Hfree.
  rewrite List.Forall_forall in Hfree. apply Hfree, Hin.
Qed.

Ltac marker_cases Hin Hocc Hloop :=
  repeat match type of Hin with
         | _ \/ _ => destruct Hin as [Hin|Hin]
         | In _ (_ ++ _) => apply in_app_or in Hin
         | In _ (_ :: _) => destruct Hin as [Hin|Hin]
         | In _ [] => contradiction
         | False => contradiction
         end;
  try (exfalso; apply Hocc; rewrite <- Hin; reflexivity);
  try (exfalso; apply Hocc; rewrite List.Forall_forall in Hloop;
       apply Hloop; exact Hin).

(** X2.  The markers of the body are never printed.  In a run that emits
    a sequence, the [forEach] loop over the segments, from whatever
    printer buffer it starts, adds no text that holds the marker; and in
    the sequence emitted, a text that holds the marker can only be the
    trimmed order details of the request. *)
Theorem printed_segments_marker_free req w l :
  emitted req w = Some l ->
  exists job,
    fst (load_images req (start w)) = Normal job
    /\ l = compose_receipt job
    /\ (forall printer,
          exists loop,
            forEach (print_segment job) (bodySegments job) printer
            = printer ++ loop
            /\ Forall (fun content => occurrences DIVIDER_MARKER content = 0)
                      (texts loop))
    /\ forall content,
         In content (texts l) ->
         occurrences DIVIDER_MARKER content <> 0 ->
         exists s, req_orderDetails req = OrderString s /\ content = trim s.
Proof.
  intros Hl.
  destruct (emitted_resolved req w l Hl) as (job & Hjob & ->).
  destruct (resolve_job_fields (assets w) req job Hjob) as (Hsegments & Hod & _).
  exists job. split; [apply resolved_loads, Hjob|]. split; [reflexivity|].
  split; [intros printer; apply (forEach_marker_free job (body req)), Hsegments|].
  intros content Hin Hocc.
  destruct (forEach_marker_free job (body req) [] Hsegments) as (loop & Heq & Hloop).
  rewrite forEach_print_segment in Heq. cbn [app] in Heq.
  fold (body_part job) in Heq. rewrite <- Heq in Hloop. clear loop Heq.
  destruct (orderDetails job) as [|s|] eqn:Hdetails.
  - rewrite (compose_receipt_parts job None Hdetails), !texts_app in Hin.
    unfold header_part, body_image_part, branded_part, footer_part,
      order_directives in Hin.
    destruct (bodyImage job), (footerImage job); cbn [texts] in Hin;
      marker_cases Hin Hocc Hloop.
  - rewrite (compose_receipt_parts job (Some s) Hdetails), !texts_app in Hin.
    unfold header_part, body_image_part, branded_part, footer_part,
      order_directives in Hin.
    destruct (bodyImage job), (footerImage job), (truthy (trim s));
      cbn [texts] in Hin; marker_cases Hin Hocc Hloop;
      exists s; (split; [symmetry; exact Hod|symmetry; exact Hin]).
  - rewrite (compose_receipt_thrown job Hdetails), !texts_app in Hin.
    unfold header_part, body_image_part, branded_part in Hin.
    destruct (bodyImage job); cbn [texts] in Hin; marker_cases Hin Hocc Hloop.
Qed.

End Markers.

(** ** The names of the temp files *)

Section TempNames.
Context `{Capabilities}.

Lemma moves_bind {A B} (P Q R : Frame -> Prop) (m : M A) (k : A -> M B) :
  moves P m Q -> (forall a, moves Q (k a) R) -> (forall f, Q f -> R f) ->
  moves P (bind m k) R.
Proof.
  intros Hm Hk HQR f Hf. specialize (Hm f Hf). unfold bind.
  destruct (m f) as [[a|message|] f']; cbn in *; auto. apply Hk, Hm.
Qed.

Lemma moves_ret {A} (P : Frame -> Prop) (a : A) : moves P (ret a) P.
Proof. intros f Hf. exact Hf. Qed.

Lemma moves_throw {A} (P : Frame -> Prop) message : moves P (@throw _ A message) P.
Proof. intros f Hf. exact Hf. Qed.

Lemma moves_existsSync (P : Frame -> Prop) path : moves P (existsSync path) P.
Proof. intros f Hf. exact Hf. Qed.

Lemma moves_readFileSync (P : Frame -> Prop) path : moves P (readFileSync path) P.
Proof.
  intros f Hf. unfold readFileSync.
  destruct (assets (world f) !! path); exact Hf.
Qed.

Lemma named_mono k k' w0 f : k <= k' -> named k w0 f -> named k' w0 f.
Proof.
  intros Hle [Hp Hc Ht Hs]. split; auto.
  etransitivity; [exact Hp|].
  replace (take k TEMP_PREFIXES) with (take k (take k' TEMP_PREFIXES))
    by (rewrite take_take; f_equal; lia).
  apply sublist_take.
Qed.

(** An image adds at most one file, under its prefix and the next
    reading of the clock. *)
Lemma moves_load_temp_image k w0 role prefix buffer width :
  TEMP_PREFIXES !! k = Some prefix ->
  moves (named k w0) (load_temp_image role prefix buffer width)
        (named (S k) w0).
Proof.
  intros Hprefix f Hf.
  unfold load_temp_image, bind, processImage, Date_now, writeFileSync,
    tempFiles_push, loadEscposImage.
  destruct (sharp buffer width) as [message|data]; cbn.
  - apply (named_mono k); [lia|].
    destruct Hf as [Hp Hc Ht Hs]. split; assumption.
  - rewrite lookup_insert_eq.
    assert (Hnamed : forall r : Completion Image,
      named (S k) w0
        {| world := with_tmpdir
             (<[(prefix, clock (world f) (ticks (world f))):=data]>
                (tmpdir (with_ticks (S (ticks (world f))) (world f))))
             (with_ticks (S (ticks (world f))) (world f));
           tempFiles := tempFiles f ++ [(prefix, clock (world f) (ticks (world f)))];
           conn := conn f;
           converted := converted f ++ [(role, width)];
           written := written f ++ [(prefix, clock (world f) (ticks (world f)))];
           warnings := warnings f |}).
    { intros _. destruct Hf as [Hp Hc Ht Hs].
      split; cbn [written world clock ticks with_tmpdir with_ticks].
      - rewrite fmap_app, (take_S_r _ _ _ Hprefix).
        apply sublist_app; [exact Hp|reflexivity].
      - exact Hc.
      - rewrite length_app, Ht. cbn [length]. lia.
      - rewrite fmap_app, length_app, Hs. cbn [length].
        rewrite Nat.add_1_r, seq_S, fmap_app, Hc, Ht. reflexivity. }
    destruct (Image_load data); cbn; apply Hnamed; exact Hang.
Qed.

Lemma moves_load_optional k w0 role path prefix width :
  TEMP_PREFIXES !! k = Some prefix ->
  moves (named k w0) (load_optional role path prefix width) (named (S k) w0).
Proof.
  intros Hprefix. unfold load_optional.
  apply (moves_bind _ (named k w0)); [apply moves_existsSync| |].
  - intros [|].
    + apply (moves_bind _ (named k w0)); [apply moves_readFileSync| |].
      * intros buffer.
        apply (moves_bind _ (named (S k) w0));
          [apply moves_load_temp_image; exact Hprefix| |auto].
        intros image. apply moves_ret.
      * intros f. apply named_mono. lia.
    + intros f Hf. apply (named_mono k); [lia|exact Hf].
  - intros f. apply named_mono. lia.
Qed.

Lemma moves_load_images w0 req :
  moves (named 0 w0) (load_images req) (named 4 w0).
Proof.
  unfold load_images.
  apply (moves_bind _ (named 0 w0)); [apply moves_existsSync| |].
  2:{ intros f. apply named_mono. lia. }
  intros present. destruct (negb present).
  { intros f Hf. apply (named_mono 0); [lia|exact Hf]. }
  apply (moves_bind _ (named 0 w0)); [apply moves_readFileSync| |].
  2:{ intros f. apply named_mono. lia. }
  intros headerBuffer.
  apply (moves_bind _ (named 1 w0));
    [apply moves_load_temp_image; reflexivity| |].
  2:{ intros f. apply named_mono. lia. }
  intros header.
  apply (moves_bind _ (named 2 w0)); [apply moves_load_optional; reflexivity| |].
  2:{ intros f. apply named_mono. lia. }
  intros divider.
  apply (moves_bind _ (named 3 w0)); [apply moves_load_optional; reflexivity| |].
  2:{ intros f. apply named_mono. lia. }
  intros footer.
  apply (moves_bind _ (named 4 w0)); [| |auto].
  - destruct (bodyImageBuffer req) as [buffer|].
    + apply (moves_bind _ (named 4 w0));
        [apply moves_load_temp_image; reflexivity| |auto].
      intros image. apply moves_ret.
    + intros f Hf. apply (named_mono 3); [lia|exact Hf].
  - intros image. apply moves_ret.
Qed.

(** The clean-up takes no reading of the clock. *)
Lemma unlink_all_clock f :
  clock (world (cleaned f)) = clock (world f)
  /\ ticks (world (cleaned f)) = ticks (world f).
Proof. destruct (cleaned_log f) as (Hclock & Hticks & _). auto. Qed.

Lemma TEMP_PREFIXES_NoDup : NoDup TEMP_PREFIXES.
Proof. apply (bool_decide_unpack _). vm_compute. reflexivity. Qed.

(** X17.  The temp files of one run: at most four, under the four
    prefixes in the order header, divider, footer, body image, each
    stamped with one reading of the clock, the readings being
    consecutive; so the names of one run are pairwise distinct even when
    the clock stands still. *)
Theorem temp_names_of_a_run req w :
  let f := snd (printReceipt req w) in
  (fst <$> written f) `sublist_of` TEMP_PREFIXES
  /\ NoDup (written f)
  /\ length (written f) <= 4
  /\ ticks (world f) = ticks w + length (written f)
  /\ (snd <$> written f) = (clock w <$> seq (ticks w) (length (written f))).
Proof.
  cbv zeta.
  assert (Hnamed : named 4 w (snd (printReceipt req w))).
  { assert (Hstart : named 0 w (start w)).
    { split; cbn; auto; try constructor; try lia. }
    pose proof (moves_load_images w req (start w) Hstart) as [Hp Hc Ht Hs].
    destruct (printReceipt_run req w)
      as (f1 & _ & [(m & Hl & ->)|(job & Hl & _ & _ & ->)]);
      rewrite Hl in Hp, Hc, Ht, Hs; cbn [snd] in *.
    - destruct (cleaned_fields f1) as (_ & Hw & _).
      destruct (unlink_all_clock f1) as [Hclock Hticks].
      split; rewrite ?Hw, ?Hclock, ?Hticks; assumption.
    - match goal with
      | |- context [cleaned ?g] =>
          destruct (cleaned_fields g) as (_ & Hw & _);
          destruct (unlink_all_clock g) as [Hclock Hticks]
      end.
      cbn [written world clock ticks with_conn with_world with_schedule]
        in Hw, Hclock, Hticks.
      split; rewrite ?Hw, ?Hclock, ?Hticks; assumption. }
  destruct Hnamed as [Hp Hc Ht Hs].
  assert (Hfull : take 4 TEMP_PREFIXES = TEMP_PREFIXES) by reflexivity.
  rewrite Hfull in Hp.
  split; [exact Hp|]. split; [|split; [|split; assumption]].
  - apply (NoDup_fmap_1 fst).
    exact (sublist_NoDup _ _ TEMP_PREFIXES_NoDup Hp).
  - apply sublist_length in Hp. rewrite length_fmap in Hp. exact Hp.
Qed.

End TempNames.

(** ** The handler of [POST /print] *)

Section MoreHandler.
Context `{Capabilities}.

(** The first test of the handler is the blankness of the body. *)
Lemma validation_test s :
  negb (truthy s) || (length (trim s) =? 0) = negb (truthy (trim s)).
Proof.
  destruct s as [|c s]; [reflexivity|].
  cbn [truthy negb orb]. destruct (trim (c :: s)); reflexivity.
Qed.

Lemma post_print_valid req w s :
  valid_body req s ->
  post_print req w
  = (match fst (printReceipt (receipt_request req s) w) with
     | Normal _ => Some {| status := 200; ok := true; error := None |}
     | Throw message =>
         Some {| status := 500; ok := false;
                 error := Some (if String.eqb message "" then "Print failed"
                                else message) |}
     | Hang => None
     end,
     Some (snd (printReceipt (receipt_request req s) w))).
Proof.
  intros (Hbody & Htext & Hlen). unfold post_print. rewrite Hbody.
  rewrite validation_test, Htext. cbn [negb].
  replace (4000 <? Z.of_nat (length s))%Z with false
    by (symmetry; apply Z.ltb_ge; lia).
  fold (receipt_request req s).
  destruct (printReceipt (receipt_request req s) w) as [[[]|message|] f];
    reflexivity.
Qed.

Lemma post_print_invalid req w :
  (forall s, ~ valid_body req s) ->
  exists message,
    message <> ""%string
    /\ post_print req w
       = (Some {| status := 400; ok := false; error := Some message |}, None).
Proof.
  intros Hinvalid. unfold post_print.
  destruct (field_body req) as [|s|t] eqn:Hbody;
    try (exists "Body text is required"%string; split; [discriminate|reflexivity]).
  rewrite validation_test.
  destruct (truthy (trim s)) eqn:Htext; cbn [negb];
    [|exists "Body text is required"%string; split; [discriminate|reflexivity]].
  destruct (4000 <? Z.of_nat (length s))%Z eqn:Hlen;
    [exists "Body text exceeds 4000 characters"%string;
     split; [discriminate|reflexivity]|].
  exfalso. apply (Hinvalid s). unfold valid_body.
  apply Z.ltb_ge in Hlen. repeat split; auto. lia.
Qed.

Lemma valid_body_dec req :
  (exists s, valid_body req s) \/ (forall s, ~ valid_body req s).
Proof.
  unfold valid_body. destruct (field_body req) as [|s|t].
  - right. intros s (Hbody & _). discriminate Hbody.
  - destruct (truthy (trim s)) eqn:Htext.
    + destruct (le_lt_dec (length s) 4000) as [Hle|Hgt].
      * left. exists s. auto.
      * right. intros s' ([= <-] & _ & Hlen). lia.
    + right. intros s' ([= <-] & Htext' & _). congruence.
  - right. intros s (Hbody & _). discriminate Hbody.
Qed.

(** X18.  The handler answers every request, with status 200, 400 or 500;
    [ok] is true with status 200 and no error, false otherwise with an
    error message that is not empty; and the status is 400 exactly when
    the handler has made no call of [printReceipt]. *)
Theorem handler_always_answers req w :
  exists response,
    fst (post_print req w) = Some response
    /\ ((status response = 200%Z /\ ok response = true
         /\ error response = None)
        \/ ((status response = 400%Z \/ status response = 500%Z)
            /\ ok response = false
            /\ exists message, error response = Some message
                               /\ message <> ""%string))
    /\ (status response = 400%Z <-> snd (post_print req w) = None).
Proof.
  destruct (valid_body_dec req) as [[s Hvalid]|Hinvalid].
  - rewrite (post_print_valid req w s Hvalid). cbn [fst snd].
    pose proof (printReceipt_returns (receipt_request req s) w) as Hreturns.
    destruct (fst (printReceipt (receipt_request req s) w))
      as [[]|message|]; [| |contradiction].
    + eexists. split; [reflexivity|]. cbn. split; [left; auto|].
      split; discriminate.
    + eexists. split; [reflexivity|]. cbn. split.
      * right. split; [auto|]. split; [reflexivity|].
        eexists. split; [reflexivity|].
        destruct (String.eqb message "") eqn:Hempty; [discriminate|].
        intros ->. discriminate Hempty.
      * split; discriminate.
  - destruct (post_print_invalid req w Hinvalid) as (message & Hmessage & ->).
    eexists. split; [reflexivity|]. cbn. split.
    + right. split; [auto|]. split; [reflexivity|]. eauto.
    + split; reflexivity.
Qed.

(** X19.  The handler calls [printReceipt] exactly for a body that is a
    string, not blank and at most 4000 code units long, and then with the
    trimmed body, the uploaded image and the order details (a falsy value
    counting as absent); any other request is answered with status 400
    and no call is made. *)
Theorem handler_prints_valid_bodies_only req w :
  (forall s, valid_body req s ->
     snd (post_print req w)
     = Some (snd (printReceipt (receipt_request req s) w)))
  /\ ((forall s, ~ valid_body req s) ->
      snd (post_print req w) = None
      /\ exists message,
           fst (post_print req w)
           = Some {| status := 400; ok := false; error := Some message |}).
Proof.
  split.
  - intros s Hvalid. rewrite (post_print_valid req w s Hvalid). reflexivity.
  - intros Hinvalid.
    destruct (post_print_invalid req w Hinvalid) as (message & _ & ->).
    split; [reflexivity|]. exists message. reflexivity.
Qed.

(** X20.  Status 200 means the receipt is printed: the body was valid, and
    the run on its trimmed text has written the whole receipt for the
    segments of that text, down to the cut, and has closed the device. *)
Theorem ok_response_means_printed req w response :
  fst (post_print req w) = Some response ->
  status response = 200%Z ->
  exists s f job front,
    valid_body req s
    /\ snd (post_print req w) = Some f
    /\ resolve_job (assets w) (receipt_request req s) = Some job
    /\ bodySegments job = split DIVIDER_MARKER (trim s)
    /\ compose_receipt job = front ++ [Feed 3; Cut]
    /\ printer (conn f) = Some (compose_receipt job)
    /\ device (conn f) = Closed.
Proof.
  intros Hresponse Hstatus.
  destruct (valid_body_dec req) as [[s Hvalid]|Hinvalid].
  2:{ destruct (post_print_invalid req w Hinvalid) as (message & _ & Hpost).
      rewrite Hpost in Hresponse. injection Hresponse as <-.
      discriminate Hstatus. }
  rewrite (post_print_valid req w s Hvalid) in *. cbn [fst snd] in *.
  destruct (fst (printReceipt (receipt_request req s) w))
    as [[]|message|] eqn:Hrun.
  - destruct (normal_run _ _ Hrun)
      as (job & front & Hjob & Hfront & Hprinter & Hdevice & _).
    destruct (resolve_job_fields _ _ _ Hjob) as (Hsegments & _).
    exists s, (snd (printReceipt (receipt_request req s) w)), job, front.
    repeat split; try assumption; apply Hvalid.
  - injection Hresponse as <-. discriminate Hstatus.
  - discriminate Hresponse.
Qed.

(** X21.  Order details that are no string but truthy (a number, an
    object) pass the validation of the handler; once the printer is
    connected the request is answered with status 500 and the message of
    the failed print. *)
Theorem non_string_order_details_answered_500 req w s job evs :
  valid_body req s ->
  field_orderDetails req = JsOther true ->
  resolve_job (assets w) (receipt_request req s) = Some job ->
  schedule w = EvOpen None :: evs ->
  fst (post_print req w)
  = Some {| status := 500; ok := false;
            error := Some "Print failed: orderDetails.trim is not a function" |}.
Proof.
  intros Hvalid Hdetails Hjob Hschedule.
  rewrite (post_print_valid req w s Hvalid). cbn [fst].
  destruct (resolve_job_fields _ _ _ Hjob) as (_ & Hod & _).
  unfold receipt_request in Hod at 1. cbn [req_orderDetails] in Hod.
  rewrite Hdetails in Hod. cbn [orderDetails_or_null] in Hod.
  destruct (type_error_run (receipt_request req s) w job evs Hjob Hod Hschedule)
    as (-> & _).
  reflexivity.
Qed.

End MoreHandler.

(** ** The test print script *)

Section MoreTestPrint.
Context `{Capabilities}.

(** X22.  The temp file of the test script is removed only when the
    script returns after a successful print; when the process exits on an
    error that comes after the file was written, or waits forever, the
    file stays where it was written. *)
Theorem test_print_temp_file now w imageBuffer processed :
  assets w !! HEADER_LOGO_PATH = Some imageBuffer ->
  sharp imageBuffer PRINTER_WIDTH_PX = SharpOutput processed ->
  let tempFilePath := ("test-print-"%string, clock w (ticks w)) in
  let run := testPrint now w in
  (test_outcome run = TestPrinted
   /\ tmpdir (test_world run) = delete tempFilePath (tmpdir w))
  \/ (test_outcome run <> TestPrinted
      /\ tmpdir (test_world run) = <[tempFilePath := processed]> (tmpdir w)).
Proof.
  intros Hlogo Hsharp. cbv zeta. unfold testPrint.
  change ("logo.png"%string) with HEADER_LOGO_PATH.
  rewrite Hlogo, Hsharp.
  cbn [schedule with_tmpdir with_ticks tmpdir].
  destruct (await_open (schedule w)) as [[[err|] evs]|].
  - right. split; [discriminate|reflexivity].
  - rewrite lookup_insert_eq.
    destruct (Image_load processed) as [message| |image].
    + right. split; [discriminate|reflexivity].
    + right. split; [discriminate|reflexivity].
    + destruct (await_close evs) as [evs'|].
      * cbn [test_cleanup with_schedule tmpdir with_tmpdir with_ticks
             unlink_error].
        rewrite lookup_insert_eq.
        destruct (unlink_error w ("test-print-"%string, clock w (ticks w)));
          cbn [test_outcome test_world tmpdir with_tmpdir].
        -- right. split; [discriminate|reflexivity].
        -- left. split; [reflexivity|]. apply delete_insert_eq.
      * right. split; [discriminate|reflexivity].
  - right. split; [discriminate|reflexivity].
Qed.

Lemma await_open_none evs :
  Forall (fun e => forall err, e <> EvOpen err) evs -> await_open evs = None.
Proof.
  induction 1 as [|e evs He _ IH]; [reflexivity|].
  destruct e as [|err|]; cbn [await_open]; auto.
  exfalso. exact (He err eq_refl).
Qed.

(** X23.  The test script sets no timer of its own (the 15000 goes to the
    driver): when the driver never calls the open callback, neither with
    an error nor without, the script never ends, prints nothing, and the
    temp file it has written stays. *)
Theorem test_print_waits_for_the_printer now w imageBuffer processed :
  assets w !! HEADER_LOGO_PATH = Some imageBuffer ->
  sharp imageBuffer PRINTER_WIDTH_PX = SharpOutput processed ->
  Forall (fun e => forall err, e <> EvOpen err) (schedule w) ->
  test_outcome (testPrint now w) = TestStuck
  /\ test_printed (testPrint now w) = None
  /\ tmpdir (test_world (testPrint now w))
       !! ("test-print-"%string, clock w (ticks w)) = Some processed.
Proof.
  intros Hlogo Hsharp Hsilent. unfold testPrint.
  change ("logo.png"%string) with HEADER_LOGO_PATH.
  rewrite Hlogo, Hsharp.
  cbn [schedule with_tmpdir with_ticks tmpdir].
  rewrite (await_open_none _ Hsilent). cbn.
  repeat split. apply lookup_insert_eq.
Qed.

End MoreTestPrint.

(** ** The further properties at work, in the concrete setting *)

Lemma no_marker_single_segment_witness :
  occurrences DIVIDER_MARKER (lit "Hello {divider} World") = 0
  /\ split DIVIDER_MARKER (lit "Hello {divider} World")
     = [lit "Hello {divider} World"].
Proof.
  assert (Hnone : occurrences DIVIDER_MARKER (lit "Hello {divider} World") = 0)
    by reflexivity.
  split; [exact Hnone|].
  exact (no_marker_single_segment _ Hnone).
Defined.

Lemma printed_segments_marker_free_witness :
  exists l,
    emitted marked_details sample_world = Some l
    /\ forall content,
         In content (texts l) ->
         occurrences DIVIDER_MARKER content <> 0 ->
         exists s, req_orderDetails marked_details = OrderString s
                   /\ content = trim s.
Proof.
  assert (Hrun : exists l, emitted marked_details sample_world = Some l)
    by (eexists; vm_compute; reflexivity).
  destruct Hrun as [l Hl]. exists l. split; [exact Hl|].
  destruct (printed_segments_marker_free marked_details sample_world l Hl)
    as (job & _ & _ & _ & Hmarker).
  exact Hmarker.
Defined.

(** The marker is markup in the body only: in the order details it is
    text like any other, and is printed. *)
Example marker_in_order_details_is_printed :
  exists l,
    emitted marked_details sample_world = Some l
    /\ texts l = [BLANK_FEED; BLANK_FEED; lit "Hello"; lit "World"; BLANK_FEED;
                  BRANDED_FOOTER; BLANK_FEED; BLANK_FEED; lit "#1 {{divider}}";
                  BLANK_FEED].
Proof. eexists. split; vm_compute; reflexivity. Qed.

Lemma rasters_of_receipt_witness :
  orderDetails sample_job = order_of None
  /\ rasters (compose_receipt sample_job)
     = [(Header, [1; 2; 3]%N); (Divider, [4; 5]%N)].
Proof.
  assert (Hod : orderDetails sample_job = order_of None) by reflexivity.
  split; [exact Hod|].
  exact (rasters_of_receipt sample_job None Hod).
Defined.

Lemma texts_of_receipt_witness :
  orderDetails sample_job = order_of None
  /\ texts (compose_receipt sample_job)
     = [BLANK_FEED; BLANK_FEED; lit "Hello"; lit "World"; BLANK_FEED;
        BRANDED_FOOTER; BLANK_FEED].
Proof.
  assert (Hod : orderDetails sample_job = order_of None) by reflexivity.
  split; [exact Hod|].
  exact (texts_of_receipt sample_job None Hod).
Defined.

Lemma asset_failure_aborts_before_network_witness :
  fst (load_images hello_world (start corrupt_world))
  = Throw "Input buffer is empty"
  /\ fst (printReceipt hello_world corrupt_world) = Throw "Input buffer is empty"
  /\ conn (snd (printReceipt hello_world corrupt_world)) = idle
  /\ schedule (world (snd (printReceipt hello_world corrupt_world)))
     = schedule corrupt_world
  /\ emitted hello_world corrupt_world = None.
Proof.
  assert (Hload : fst (load_images hello_world (start corrupt_world))
                  = Throw "Input buffer is empty") by (vm_compute; reflexivity).
  split; [exact Hload|].
  exact (asset_failure_aborts_before_network hello_world corrupt_world _ Hload).
Defined.

Lemma corrupt_optional_image_fails_witness :
  (assets corrupt_world !! DIVIDER_IMAGE_PATH = Some []
   /\ converted_image [] PRINTER_WIDTH_PX = None)
  /\ exists message,
       fst (printReceipt hello_world corrupt_world) = Throw message
       /\ emitted hello_world corrupt_world = None.
Proof.
  assert (Hcorrupt : assets corrupt_world !! DIVIDER_IMAGE_PATH = Some []
                     /\ converted_image [] PRINTER_WIDTH_PX = None)
    by (split; vm_compute; reflexivity).
  split; [exact Hcorrupt|].
  exact (corrupt_optional_image_fails hello_world corrupt_world []
           (or_introl Hcorrupt)).
Defined.

Lemma success_means_printed_and_closed_witness :
  fst (printReceipt hello_world sample_world) = Normal tt
  /\ exists job front,
       resolve_job (assets sample_world) hello_world = Some job
       /\ compose_receipt job = front ++ [Feed 3; Cut]
       /\ printer (conn (snd (printReceipt hello_world sample_world)))
          = Some (compose_receipt job)
       /\ device (conn (snd (printReceipt hello_world sample_world))) = Closed
       /\ timer (conn (snd (printReceipt hello_world sample_world))) = false.
Proof.
  assert (Hok : fst (printReceipt hello_world sample_world) = Normal tt)
    by (vm_compute; reflexivity).
  split; [exact Hok|].
  exact (success_means_printed_and_closed hello_world sample_world Hok).
Defined.

Lemma connect_then_close_succeeds_witness :
  resolve_job (assets sample_world) hello_world = Some sample_job
  /\ orderDetails sample_job <> OrderOther
  /\ schedule sample_world = [EvOpen None; EvClosed]
  /\ fst (printReceipt hello_world sample_world) = Normal tt
  /\ schedule (world (snd (printReceipt hello_world sample_world))) = [].
Proof.
  assert (Hjob : resolve_job (assets sample_world) hello_world = Some sample_job)
    by (vm_compute; reflexivity).
  assert (Hother : orderDetails sample_job <> OrderOther) by discriminate.
  assert (Hschedule : schedule sample_world = [EvOpen None; EvClosed])
    by reflexivity.
  split; [exact Hjob|]. split; [exact Hother|]. split; [exact Hschedule|].
  exact (connect_then_close_succeeds hello_world sample_world sample_job []
           Hjob Hother Hschedule).
Defined.

Lemma errors_of_printReceipt_witness :
  fst (printReceipt hello_world refused_world)
  = Throw "Failed to connect to printer: connect ECONNREFUSED"
  /\ (fst (load_images hello_world (start refused_world))
      = Throw "Failed to connect to printer: connect ECONNREFUSED"
      \/ network_error (schedule refused_world)
           "Failed to connect to printer: connect ECONNREFUSED").
Proof.
  assert (Hthrow : fst (printReceipt hello_world refused_world)
    = Throw "Failed to connect to printer: connect ECONNREFUSED")
    by (vm_compute; reflexivity).
  split; [exact Hthrow|].
  exact (errors_of_printReceipt hello_world refused_world _ Hthrow).
Defined.

Lemma connection_error_prints_nothing_witness :
  resolve_job (assets refused_world) hello_world = Some sample_job
  /\ schedule refused_world = [EvOpen (Some "connect ECONNREFUSED"%string)]
  /\ fst (printReceipt hello_world refused_world)
     = Throw "Failed to connect to printer: connect ECONNREFUSED"
  /\ device (conn (snd (printReceipt hello_world refused_world))) = Connecting
  /\ emitted hello_world refused_world = None.
Proof.
  assert (Hjob : resolve_job (assets refused_world) hello_world = Some sample_job)
    by (vm_compute; reflexivity).
  assert (Hschedule : schedule refused_world
                      = [EvOpen (Some "connect ECONNREFUSED"%string)])
    by reflexivity.
  split; [exact Hjob|]. split; [exact Hschedule|].
  exact (connection_error_prints_nothing hello_world refused_world sample_job
           "connect ECONNREFUSED" [] Hjob Hschedule).
Defined.

Lemma timeout_after_printing_witness :
  resolve_job (assets busy_world) hello_world = Some sample_job
  /\ orderDetails sample_job <> OrderOther
  /\ schedule busy_world = [EvOpen None; EvTimeout; EvClosed]
  /\ fst (printReceipt hello_world busy_world)
     = Throw "Printer connection timeout"
  /\ printer (conn (snd (printReceipt hello_world busy_world)))
     = Some (compose_receipt sample_job)
  /\ device (conn (snd (printReceipt hello_world busy_world))) = Open
  /\ close_cb (conn (snd (printReceipt hello_world busy_world))) = true.
Proof.
  assert (Hjob : resolve_job (assets busy_world) hello_world = Some sample_job)
    by (vm_compute; reflexivity).
  assert (Hother : orderDetails sample_job <> OrderOther) by discriminate.
  assert (Hschedule : schedule busy_world = [EvOpen None; EvTimeout; EvClosed])
    by reflexivity.
  split; [exact Hjob|]. split; [exact Hother|]. split; [exact Hschedule|].
  exact (timeout_after_printing hello_world busy_world sample_job [EvClosed]
           Hjob Hother Hschedule).
Defined.

Lemma type_error_closes_device_witness :
  resolve_job (assets sample_world) odd_details = Some odd_job
  /\ orderDetails odd_job = OrderOther
  /\ schedule sample_world = [EvOpen None; EvClosed]
  /\ fst (printReceipt odd_details sample_world)
     = Throw "Print failed: orderDetails.trim is not a function"
  /\ device (conn (snd (printReceipt odd_details sample_world))) = Closed
  /\ timer (conn (snd (printReceipt odd_details sample_world))) = false
  /\ printer (conn (snd (printReceipt odd_details sample_world)))
     = Some (header_part odd_job ++ body_part odd_job ++ [Text BLANK_FEED]
               ++ body_image_part odd_job ++ branded_part).
Proof.
  assert (Hjob : resolve_job (assets sample_world) odd_details = Some odd_job)
    by (vm_compute; reflexivity).
  assert (Hother : orderDetails odd_job = OrderOther) by reflexivity.
  assert (Hschedule : schedule sample_world = [EvOpen None; EvClosed])
    by reflexivity.
  split; [exact Hjob|]. split; [exact Hother|]. split; [exact Hschedule|].
  exact (type_error_closes_device odd_details sample_world odd_job [EvClosed]
           Hjob Hother Hschedule).
Defined.

Lemma ok_response_means_printed_witness :
  fst (post_print hello_http sample_world)
  = Some {| status := 200; ok := true; error := None |}
  /\ exists s f job front,
       valid_body hello_http s
       /\ snd (post_print hello_http sample_world) = Some f
       /\ resolve_job (assets sample_world) (receipt_request hello_http s)
          = Some job
       /\ bodySegments job = split DIVIDER_MARKER (trim s)
       /\ compose_receipt job = front ++ [Feed 3; Cut]
       /\ printer (conn f) = Some (compose_receipt job)
       /\ device (conn f) = Closed.
Proof.
  assert (Hresponse : fst (post_print hello_http sample_world)
    = Some {| status := 200; ok := true; error := None |})
    by (vm_compute; reflexivity).
  split; [exact Hresponse|].
  exact (ok_response_means_printed hello_http sample_world _ Hresponse eq_refl).
Defined.

Lemma non_string_order_details_answered_500_witness :
  valid_body odd_http (lit "Hello")
  /\ field_orderDetails odd_http = JsOther true
  /\ resolve_job (assets sample_world) (receipt_request odd_http (lit "Hello"))
     = Some odd_job
  /\ schedule sample_world = [EvOpen None; EvClosed]
  /\ fst (post_print odd_http sample_world)
     = Some {| status := 500; ok := false;
               error := Some "Print failed: orderDetails.trim is not a function" |}.
Proof.
  assert (Hvalid : valid_body odd_http (lit "Hello")).
  { split; [reflexivity|]. split; [reflexivity|].
    apply Nat.leb_le. reflexivity. }
  assert (Hdetails : field_orderDetails odd_http = JsOther true) by reflexivity.
  assert (Hjob : resolve_job (assets sample_world)
                   (receipt_request odd_http (lit "Hello")) = Some odd_job)
    by (vm_compute; reflexivity).
  assert (Hschedule : schedule sample_world = [EvOpen None; EvClosed])
    by reflexivity.
  split; [exact Hvalid|]. split; [exact Hdetails|]. split; [exact Hjob|].
  split; [exact Hschedule|].
  exact (non_string_order_details_answered_500 odd_http sample_world
           (lit "Hello") odd_job [EvClosed] Hvalid Hdetails Hjob Hschedule).
Defined.

Lemma test_print_temp_file_witness :
  assets refused_world !! HEADER_LOGO_PATH = Some [1; 2; 3]%N
  /\ sharp [1; 2; 3]%N PRINTER_WIDTH_PX = SharpOutput [1; 2; 3]%N
  /\ ((test_outcome (testPrint (lit "1/1/2026") refused_world) = TestPrinted
       /\ tmpdir (test_world (testPrint (lit "1/1/2026") refused_world))
          = delete ("test-print-"%string, clock refused_world (ticks refused_world))
                   (tmpdir refused_world))
      \/ (test_outcome (testPrint (lit "1/1/2026") refused_world) <> TestPrinted
          /\ tmpdir (test_world (testPrint (lit "1/1/2026") refused_world))
             = <[("test-print-"%string,
                  clock refused_world (ticks refused_world)) := [1; 2; 3]%N]>
                 (tmpdir refused_world))).
Proof.
  assert (Hlogo : assets refused_world !! HEADER_LOGO_PATH = Some [1; 2; 3]%N)
    by (vm_compute; reflexivity).
  assert (Hsharp : sharp [1; 2; 3]%N PRINTER_WIDTH_PX = SharpOutput [1; 2; 3]%N)
    by reflexivity.
  split; [exact Hlogo|]. split; [exact Hsharp|].
  exact (test_print_temp_file (lit "1/1/2026") refused_world _ _ Hlogo Hsharp).
Defined.

Example test_print_exits_with_the_file_left :
  test_outcome (testPrint (lit "1/1/2026") refused_world) = TestExit 1
  /\ tmpdir (test_world (testPrint (lit "1/1/2026") refused_world))
       !! ("test-print-"%string, 1700000000000%Z) = Some [1; 2; 3]%N.
Proof. split; vm_compute; reflexivity. Qed.

Example test_print_rejected_by_the_clean_up :
  test_outcome (testPrint (lit "1/1/2026") sticky_world)
  = TestRejected "EBUSY: resource busy or locked, unlink"
  /\ tmpdir (test_world (testPrint (lit "1/1/2026") sticky_world))
       !! ("test-print-"%string, 1700000000000%Z) = Some [1; 2; 3]%N.
Proof. split; vm_compute; reflexivity. Qed.

Example test_print_returns_without_the_file :
  test_outcome (testPrint (lit "1/1/2026") sample_world) = TestPrinted
  /\ tmpdir (test_world (testPrint (lit "1/1/2026") sample_world)) = ∅.
Proof. split; vm_compute; reflexivity. Qed.

Lemma test_print_waits_for_the_printer_witness :
  assets silent_world !! HEADER_LOGO_PATH = Some [1; 2; 3]%N
  /\ sharp [1; 2; 3]%N PRINTER_WIDTH_PX = SharpOutput [1; 2; 3]%N
  /\ Forall (fun e => forall err, e <> EvOpen err) (schedule silent_world)
  /\ test_outcome (testPrint (lit "1/1/2026") silent_world) = TestStuck
  /\ test_printed (testPrint (lit "1/1/2026") silent_world) = None
  /\ tmpdir (test_world (testPrint (lit "1/1/2026") silent_world))
       !! ("test-print-"%string, clock silent_world (ticks silent_world))
     = Some [1; 2; 3]%N.
Proof.
  assert (Hlogo : assets silent_world !! HEADER_LOGO_PATH = Some [1; 2; 3]%N)
    by (vm_compute; reflexivity).
  assert (Hsharp : sharp [1; 2; 3]%N PRINTER_WIDTH_PX = SharpOutput [1; 2; 3]%N)
    by reflexivity.
  assert (Hsilent : Forall (fun e => forall err, e <> EvOpen err)
                      (schedule silent_world)) by constructor.
  split; [exact Hlogo|]. split; [exact Hsharp|]. split; [exact Hsilent|].
  exact (test_print_waits_for_the_printer (lit "1/1/2026") silent_world _ _
           Hlogo Hsharp Hsilent).
Defined.
